(** * The reindex script of the semantic-search demo (scripts/reindex.ts)

    A shallow embedding of the script and the properties its description
    states about it.

    The script talks to three things outside itself: the process
    environment (variables and command line), the seed file, and the search
    service behind [fetch].  All three are inputs of the model; what the
    script does to the outside (requests, lines on the two console streams,
    the exit code) is recorded in one chronological trace.

    - A JavaScript string is a sequence of UTF-16 code units.  It is held
      here as a [string] of bytes, its generalised UTF-8 form: UTF-8, and
      for a surrogate that is not half of a pair the three bytes
      ED A0-BF 80-BF.  No statement below speaks of lengths of strings.
    - [process.env] (after dotenv has filled it) is a function from names to
      optional values.
    - A [fetch] either resolves with a response or rejects; the service may
      answer depending on everything it has been sent so far.  The body of
      a response is read separately, by [res.text()], which gives the text
      or rejects in its turn.  A request or a body read that never settles
      is outside the model: every run here terminates.
    - [encodeURIComponent] throws on a string with a lone surrogate.
    - [process.exit] ends the run at once and cannot be caught; an
      exception or a rejected promise propagates up to the handler
      installed on [main()]. *)

From Stdlib Require Import List String Ascii Bool Arith Lia.
From Stdlib Require Import Decimal DecimalString DecimalNat.
Import ListNotations.
Open Scope string_scope.
Open Scope list_scope.
Open Scope nat_scope.

(** String concatenation, as in a template literal; [++] stays with lists. *)
Infix "+++" := String.append (right associativity, at level 60).

Set Implicit Arguments.

(** ** JavaScript values the script relies on *)

Module Js.

(** Truthiness of a value of type [string | undefined]. *)
Definition truthy (v : option string) : bool :=
  match v with
  | None => false
  | Some EmptyString => false
  | Some (String _ _) => true
  end.

(** [a || b] *)
Definition or (a b : option string) : option string :=
  if truthy a then a else b.

(** A [string | undefined] inside a template literal. *)
Definition tmpl (v : option string) : string :=
  match v with
  | Some s => s
  | None => "undefined"
  end.

(** A non-negative integer inside a template literal. *)
Definition num (n : nat) : string :=
  NilEmpty.string_of_uint (Nat.to_uint n).

(** [args.includes(x)] *)
Definition includes (args : list string) (x : string) : bool :=
  existsb (String.eqb x) args.

Definition nl : string := String (ascii_of_nat 10) EmptyString.

(** What [encodeURIComponent] throws, as [console.error] renders it. *)
Definition uriError : string := "URIError: URI malformed".

End Js.

(** ** encodeURIComponent

    The built-in of the platform.  On a string with a lone surrogate it
    throws [URIError]; on any other string the unreserved marks, letters
    and digits stand for themselves and every other byte of the UTF-8 form
    becomes [%XX] with upper-case hexadecimal digits. *)

Module Uri.

Definition isAlpha (c : ascii) : bool :=
  let n := nat_of_ascii c in
  ((65 <=? n) && (n <=? 90)) || ((97 <=? n) && (n <=? 122)).

Definition isDigit (c : ascii) : bool :=
  let n := nat_of_ascii c in (48 <=? n) && (n <=? 57).

Definition isMark (c : ascii) : bool :=
  existsb (Ascii.eqb c)
    ["-"; "_"; "."; "!"; "~"; "*"; "'"; "("; ")"]%char.

Definition unreserved (c : ascii) : bool :=
  isAlpha c || isDigit c || isMark c.

Definition hexDigit (n : nat) : ascii :=
  nth n (list_ascii_of_string "0123456789ABCDEF") "0"%char.

Definition hexValue (c : ascii) : option nat :=
  let n := nat_of_ascii c in
  if (48 <=? n) && (n <=? 57) then Some (n - 48)
  else if (65 <=? n) && (n <=? 70) then Some (n - 55)
  else if (97 <=? n) && (n <=? 102) then Some (n - 87)
  else None.

Definition isHex (c : ascii) : bool :=
  match hexValue c with Some _ => true | None => false end.

(** The bytes [c d] begin a surrogate: ED followed by A0-BF. *)
Definition beginsSurrogate (c d : ascii) : bool :=
  (nat_of_ascii c =? 237)
    && (160 <=? nat_of_ascii d) && (nat_of_ascii d <=? 191).

(** The string holds a surrogate that is not half of a pair (a pair is
    held as the four bytes of the character it stands for). *)
Fixpoint hasLoneSurrogate (s : string) : bool :=
  match s with
  | EmptyString => false
  | String c rest =>
      match rest with
      | String d _ => beginsSurrogate c d
      | EmptyString => false
      end || hasLoneSurrogate rest
  end.

Fixpoint percentEncode (s : string) : string :=
  match s with
  | EmptyString => EmptyString
  | String c rest =>
      if unreserved c then String c (percentEncode rest)
      else
        let n := nat_of_ascii c in
        String "%" (String (hexDigit (n / 16)) (String (hexDigit (n mod 16))
          (percentEncode rest)))
  end.

(** [None] stands for the [URIError] the built-in throws. *)
Definition encodeURIComponent (s : string) : option string :=
  if hasLoneSurrogate s then None else Some (percentEncode s).

(** The reading a server gives a path segment: percent-decoding. *)
Fixpoint decodeSegment (s : string) : option string :=
  match s with
  | EmptyString => Some EmptyString
  | String "%" (String h (String l rest)) =>
      match hexValue h, hexValue l, decodeSegment rest with
      | Some a, Some b, Some r => Some (String (ascii_of_nat (16 * a + b)) r)
      | _, _, _ => None
      end
  | String "%" _ => None
  | String c rest =>
      match decodeSegment rest with
      | Some r => Some (String c r)
      | None => None
      end
  end.

(** Unreserved characters and complete percent-escapes only: a text
    that delimits nothing in a URL. *)
Fixpoint escapedOnly (s : string) : bool :=
  match s with
  | EmptyString => true
  | String "%" (String h (String l rest)) =>
      isHex h && isHex l && escapedOnly rest
  | String c rest => unreserved c && escapedOnly rest
  end.

(** The segments the URL parser behind [fetch] does not keep: the
    single-dot and double-dot segments of the URL standard, with [%2e]
    for a dot in either case. *)
Definition isDotSegment (s : string) : bool :=
  existsb (String.eqb s)
    [ "."; "%2e"; "%2E";
      ".."; ".%2e"; ".%2E"; "%2e."; "%2E.";
      "%2e%2e"; "%2e%2E"; "%2E%2e"; "%2E%2E" ].

(** What reaches the server as one path segment of its own: not empty,
    no dot segment, nothing that delimits. *)
Definition singleSegment (s : string) : bool :=
  escapedOnly s
    && negb (String.eqb s EmptyString) && negb (isDotSegment s).

(** [c] occurs in [s]. *)
Fixpoint occurs (c : ascii) (s : string) : bool :=
  match s with
  | EmptyString => false
  | String d rest => Ascii.eqb c d || occurs c rest
  end.

End Uri.

(** ** Data model *)

Definition DocumentMetadata := list (string * string).

Record SeedDocument := {
  id : string;
  text : string;
  metadata : option DocumentMetadata
}.

Inductive Method := DELETE | POST.

(** What [fetch] is given.  [body] is the document [JSON.stringify]
    serialises. *)
Record Request := {
  method : Method;
  url : string;
  headers : list (string * string);
  body : option SeedDocument
}.

(** What [res.text()] gives: the text of the body, or a rejection. *)
Inductive BodyRead :=
| BodyText (text : string)
| BodyFailed (err : string).

Record Response := {
  status : nat;
  responseBody : BodyRead
}.

(** [res.ok]: the status is in the range 200-299. *)
Definition ok (res : Response) : bool :=
  (200 <=? status res) && (status res <=? 299).

Inductive FetchResult :=
| Resolved (res : Response)
| Rejected (err : string).

(** The search service, as seen from the script: what a request gets,
    given the exchanges that came before it. *)
Definition Network := list (Request * FetchResult) -> Request -> FetchResult.

(** [process.env] *)
Definition Env := string -> option string.

Inductive Event :=
| Fetch (req : Request) (res : FetchResult)
| Log (line : string)       (* console.log *)
| Error (line : string).    (* console.error *)

Definition Trace := list Event.

Fixpoint exchanges (tr : Trace) : list (Request * FetchResult) :=
  match tr with
  | [] => []
  | Fetch req res :: rest => (req, res) :: exchanges rest
  | _ :: rest => exchanges rest
  end.

(** ** The effects of the script *)

Inductive Outcome (A : Type) :=
| Ret (a : A)              (* normal completion *)
| Throw (err : string)     (* exception / rejected promise *)
| Exit (code : nat).       (* process.exit(code) *)

Arguments Ret {A} a.
Arguments Throw {A} err.
Arguments Exit {A} code.

Definition M (A : Type) := Trace -> Outcome A * Trace.

Definition ret {A} (a : A) : M A := fun tr => (Ret a, tr).

Definition bind {A B} (m : M A) (k : A -> M B) : M B :=
  fun tr =>
    match m tr with
    | (Ret a, tr') => k a tr'
    | (Throw err, tr') => (Throw err, tr')
    | (Exit code, tr') => (Exit code, tr')
    end.

Declare Scope script_scope.
Delimit Scope script_scope with script.
Notation "x <- m ;; k" := (bind m (fun x => k))
  (at level 61, m at next level, right associativity) : script_scope.
Notation "m ;; k" := (bind m (fun _ => k))
  (at level 61, right associativity) : script_scope.
Open Scope script_scope.

Definition throw {A} (err : string) : M A := fun tr => (Throw err, tr).

(** [p.catch(handler)] *)
Definition catch {A} (m : M A) (handler : string -> M A) : M A :=
  fun tr =>
    match m tr with
    | (Throw err, tr') => handler err tr'
    | r => r
    end.

Definition emit (ev : Event) : M unit := fun tr => (Ret tt, tr ++ [ev]).

Definition console_log (line : string) : M unit := emit (Log line).
Definition console_error (line : string) : M unit := emit (Error line).
Definition process_exit {A} (code : nat) : M A := fun tr => (Exit code, tr).

(** [if (c) { m }] *)
Definition when (c : bool) (m : M unit) : M unit :=
  if c then m else ret tt.

(** [for (const x of xs) { body }], where [st] holds the variables the
    body updates. *)
Fixpoint forOf {A St} (xs : list A) (body : A -> St -> M St) (st : St) : M St :=
  match xs with
  | [] => ret st
  | x :: rest => st' <- body x st ;; forOf rest body st'
  end.

(** ** The script *)

(** The seed file as [loadSeedData] finds it: [readFileSync] and
    [JSON.parse] give the documents, or one of them throws.  What is
    parsed is taken at its declared type, [SeedDocument[]]: the script
    validates nothing. *)
Inductive SeedFile :=
| Parsed (documents : list SeedDocument)
| Unreadable (err : string).

Section Script.

Variable env : Env.                (* process.env *)
Variable argv : list string.       (* process.argv *)
Variable seedFile : SeedFile.      (* scripts/seed-data.json *)
Variable net : Network.            (* the service behind fetch *)

Definition API_URL : option string := env "API_URL".
Definition API_KEY : option string :=
  Js.or (env "API_KEY") (env "API_KEY_WRITER").

Definition loadSeedData : M (list SeedDocument) :=
  match seedFile with
  | Parsed documents => ret documents
  | Unreadable err => throw err
  end.

Definition fetch (req : Request) : M Response :=
  fun tr =>
    let res := net (exchanges tr) req in
    (match res with
     | Resolved r => Ret r
     | Rejected err => Throw err
     end, tr ++ [Fetch req res]).

(** [await res.text()] *)
Definition res_text (res : Response) : M string :=
  match responseBody res with
  | BodyText text => ret text
  | BodyFailed err => throw err
  end.

(** [encodeURIComponent(s)] *)
Definition encodeURIComponent (s : string) : M string :=
  match Uri.encodeURIComponent s with
  | Some encoded => ret encoded
  | None => throw Js.uriError
  end.

(** The request of [deleteDocument], for the id as it was encoded. *)
Definition deleteRequest (segment : string) : Request :=
  {| method := DELETE;
     url := Js.tmpl API_URL +++ "/v1/documents/" +++ segment;
     headers := [("Authorization", "Bearer " +++ Js.tmpl API_KEY)];
     body := None |}.

Definition deleteDocument (id : string) : M bool :=
  segment <- encodeURIComponent id ;;
  res <- fetch (deleteRequest segment) ;;
  if ok res then
    console_log ("  ✓ Deleted: " +++ id) ;;
    ret true
  else if status res =? 404 then
    console_log ("  - Not found (skip): " +++ id) ;;
    ret true
  else
    text <- res_text res ;;
    console_error ("  ✗ Failed to delete " +++ id +++ ": "
                     +++ Js.num (status res) +++ " " +++ text) ;;
    ret false.

Definition indexRequest (doc : SeedDocument) : Request :=
  {| method := POST;
     url := Js.tmpl API_URL +++ "/v1/documents";
     headers := [("Authorization", "Bearer " +++ Js.tmpl API_KEY);
                 ("Content-Type", "application/json")];
     body := Some doc |}.

Definition indexDocument (doc : SeedDocument) : M bool :=
  res <- fetch (indexRequest doc) ;;
  if ok res then
    console_log ("  ✓ Indexed: " +++ id doc) ;;
    ret true
  else
    text <- res_text res ;;
    console_error ("  ✗ Failed to index " +++ id doc +++ ": "
                     +++ Js.num (status res) +++ " " +++ text) ;;
    ret false.

(** The body of the first loop of [main]: the result of the delete is
    dropped. *)
Definition deleteStep (doc : SeedDocument) (st : unit) : M unit :=
  _ <- deleteDocument (id doc) ;; ret st.

(** The body of the second loop of [main], on the two counters
    [(success, failed)]. *)
Definition indexStep (doc : SeedDocument) (st : nat * nat) : M (nat * nat) :=
  let '(success, failed) := st in
  isOk <- indexDocument doc ;;
  if isOk then ret (S success, failed) else ret (success, S failed).

Definition summaryLine (success failed : nat) : string :=
  "✅ Done: " +++ Js.num success +++ " indexed, " +++ Js.num failed +++ " failed".

Definition main : M unit :=
  let args := skipn 2 argv in
  let shouldClean := Js.includes args "--clean" in
  console_log (Js.nl +++ "🔄 Reindex Script") ;;
  console_log ("   API: " +++ Js.tmpl API_URL) ;;
  console_log ("   Clean mode: " +++ (if shouldClean then "yes" else "no")) ;;
  console_log EmptyString ;;
  documents <- loadSeedData ;;
  console_log ("📄 Loaded " +++ Js.num (List.length documents)
                 +++ " documents from seed-data.json" +++ Js.nl) ;;
  when shouldClean (
    console_log "🗑️  Deleting existing documents..." ;;
    forOf documents deleteStep tt ;;
    console_log EmptyString) ;;
  console_log "📥 Indexing documents..." ;;
  counters <- forOf documents indexStep (0, 0) ;;
  let '(success, failed) := counters in
  console_log EmptyString ;;
  console_log (summaryLine success failed) ;;
  when (0 <? failed) (process_exit 1).

(** The module body: the two configuration checks, then
    [main().catch(...)]. *)
Definition script : M unit :=
  when (negb (Js.truthy API_URL)) (
    console_error "Error: API_URL environment variable is required" ;;
    console_error "       Set it explicitly to prevent accidental production changes" ;;
    console_error "       Example: API_URL=http://localhost:8787" ;;
    process_exit 1) ;;
  when (negb (Js.truthy API_KEY)) (
    console_error "Error: API_KEY or API_KEY_WRITER environment variable is required" ;;
    console_error "       Set it in .env file or pass via environment" ;;
    process_exit 1) ;;
  catch main (fun err =>
    console_error ("Fatal error: " +++ err) ;;
    process_exit 1).

(** What a run of the script leaves behind.  A run that ends normally
    exits with code 0; an exception nobody caught would exit with 1. *)
Definition trace : Trace := snd (script []).

Definition exitCodeOf (out : Outcome unit) : nat :=
  match out with
  | Ret _ => 0
  | Exit code => code
  | Throw _ => 1
  end.

Definition exitCode : nat := exitCodeOf (fst (script [])).

(** *** The lines the script prints, by name *)

Definition deletedLine (docId : string) : string :=
  "  ✓ Deleted: " +++ docId.
Definition notFoundLine (docId : string) : string :=
  "  - Not found (skip): " +++ docId.
Definition deleteFailedLine (docId : string) (res : Response)
    (text : string) : string :=
  "  ✗ Failed to delete " +++ docId +++ ": "
    +++ Js.num (status res) +++ " " +++ text.
Definition indexedLine (doc : SeedDocument) : string :=
  "  ✓ Indexed: " +++ id doc.
Definition indexFailedLine (doc : SeedDocument) (res : Response)
    (text : string) : string :=
  "  ✗ Failed to index " +++ id doc +++ ": "
    +++ Js.num (status res) +++ " " +++ text.
Definition fatalLine (err : string) : string := "Fatal error: " +++ err.
Definition deletingLine : string := "🗑️  Deleting existing documents...".
Definition indexingLine : string := "📥 Indexing documents...".

Definition shouldClean : bool := Js.includes (skipn 2 argv) "--clean".

(** What [main] prints before it touches the seed file. *)
Definition banner : Trace :=
  [ Log (Js.nl +++ "🔄 Reindex Script");
    Log ("   API: " +++ Js.tmpl API_URL);
    Log ("   Clean mode: " +++ (if shouldClean then "yes" else "no"));
    Log EmptyString ].

Definition loadedLine (documents : list SeedDocument) : string :=
  "📄 Loaded " +++ Js.num (List.length documents)
    +++ " documents from seed-data.json" +++ Js.nl.

Definition missingUrlErrors : Trace :=
  [ Error "Error: API_URL environment variable is required";
    Error "       Set it explicitly to prevent accidental production changes";
    Error "       Example: API_URL=http://localhost:8787" ].

Definition missingKeyErrors : Trace :=
  [ Error "Error: API_KEY or API_KEY_WRITER environment variable is required";
    Error "       Set it in .env file or pass via environment" ].

(** The first line of the fatal error for the missing key. *)
Definition missingKeyLine : string :=
  "Error: API_KEY or API_KEY_WRITER environment variable is required".

(** *** The shape of the two loops

    What the delete loop and the index loop append to the trace, and how
    they end, whatever the ids are and whatever the service answers. *)

(** The request that deletes [doc], when its id can be encoded. *)
Definition deleteRequestFor (doc : SeedDocument) : Request :=
  deleteRequest (Uri.percentEncode (id doc)).

Inductive DeleteEvents : list SeedDocument -> Trace -> Outcome unit -> Prop :=
| DeleteDone : DeleteEvents [] [] (Ret tt)
| DeleteMalformed doc rest :
    Uri.hasLoneSurrogate (id doc) = true ->
    DeleteEvents (doc :: rest) [] (Throw Js.uriError)
| DeleteOk doc rest res evs out :
    Uri.hasLoneSurrogate (id doc) = false ->
    ok res = true ->
    DeleteEvents rest evs out ->
    DeleteEvents (doc :: rest)
      (Fetch (deleteRequestFor doc) (Resolved res)
         :: Log (deletedLine (id doc)) :: evs) out
| DeleteNotFound doc rest res evs out :
    Uri.hasLoneSurrogate (id doc) = false ->
    ok res = false -> status res = 404 ->
    DeleteEvents rest evs out ->
    DeleteEvents (doc :: rest)
      (Fetch (deleteRequestFor doc) (Resolved res)
         :: Log (notFoundLine (id doc)) :: evs) out
| DeleteFailed doc rest res text evs out :
    Uri.hasLoneSurrogate (id doc) = false ->
    ok res = false -> status res <> 404 ->
    responseBody res = BodyText text ->
    DeleteEvents rest evs out ->
    DeleteEvents (doc :: rest)
      (Fetch (deleteRequestFor doc) (Resolved res)
         :: Error (deleteFailedLine (id doc) res text) :: evs) out
| DeleteUnreadable doc rest res err :
    Uri.hasLoneSurrogate (id doc) = false ->
    ok res = false -> status res <> 404 ->
    responseBody res = BodyFailed err ->
    DeleteEvents (doc :: rest)
      [Fetch (deleteRequestFor doc) (Resolved res)] (Throw err)
| DeleteRejected doc rest err :
    Uri.hasLoneSurrogate (id doc) = false ->
    DeleteEvents (doc :: rest)
      [Fetch (deleteRequestFor doc) (Rejected err)] (Throw err).

Inductive IndexEvents :
  list SeedDocument -> nat * nat -> Trace -> Outcome (nat * nat) -> Prop :=
| IndexDone st : IndexEvents [] st [] (Ret st)
| IndexOk doc rest success failed res evs out :
    ok res = true ->
    IndexEvents rest (S success, failed) evs out ->
    IndexEvents (doc :: rest) (success, failed)
      (Fetch (indexRequest doc) (Resolved res)
         :: Log (indexedLine doc) :: evs) out
| IndexFailed doc rest success failed res text evs out :
    ok res = false ->
    responseBody res = BodyText text ->
    IndexEvents rest (success, S failed) evs out ->
    IndexEvents (doc :: rest) (success, failed)
      (Fetch (indexRequest doc) (Resolved res)
         :: Error (indexFailedLine doc res text) :: evs) out
| IndexUnreadable doc rest st res err :
    ok res = false ->
    responseBody res = BodyFailed err ->
    IndexEvents (doc :: rest) st
      [Fetch (indexRequest doc) (Resolved res)] (Throw err)
| IndexRejected doc rest st err :
    IndexEvents (doc :: rest) st
      [Fetch (indexRequest doc) (Rejected err)] (Throw err).

(** The part of the trace between the "Loaded" line and the "Indexing"
    line, when it is completed. *)
Inductive CleanPhase (documents : list SeedDocument) : bool -> Trace -> Prop :=
| CleanSkipped : CleanPhase documents false []
| CleanDone devs :
    DeleteEvents documents devs (Ret tt) ->
    CleanPhase documents true
      (Log deletingLine :: devs ++ [Log EmptyString]).

(** Everything [main] does after the "Loaded" line, with the exit code
    of the process: the delete loop is ended by an exception, the index
    loop is ended by an exception, or the summary is reached. *)
Inductive MainRun (documents : list SeedDocument) (clean : bool) :
  Trace -> nat -> Prop :=
| RunDeleteRejected devs err :
    clean = true ->
    DeleteEvents documents devs (Throw err) ->
    MainRun documents clean
      (Log deletingLine :: devs ++ [Error (fatalLine err)]) 1
| RunIndexRejected cevs ievs err :
    CleanPhase documents clean cevs ->
    IndexEvents documents (0, 0) ievs (Throw err) ->
    MainRun documents clean
      (cevs ++ Log indexingLine :: ievs ++ [Error (fatalLine err)]) 1
| RunCompleted cevs ievs success failed :
    CleanPhase documents clean cevs ->
    IndexEvents documents (0, 0) ievs (Ret (success, failed)) ->
    MainRun documents clean
      (cevs ++ Log indexingLine :: ievs
         ++ [Log EmptyString; Log (summaryLine success failed)])
      (if 0 <? failed then 1 else 0).

(** Both required configuration values are there. *)
Definition configured : Prop :=
  Js.truthy API_URL = true /\ Js.truthy API_KEY = true.

End Script.

(** ** Reading a trace *)

Definition Method_eqb (a b : Method) : bool :=
  match a, b with
  | DELETE, DELETE | POST, POST => true
  | _, _ => false
  end.

(** The event is a request with method [m]. *)
Definition isRequest (m : Method) (ev : Event) : bool :=
  match ev with
  | Fetch req _ => Method_eqb (method req) m
  | _ => false
  end.

Definition isFetch (ev : Event) : bool :=
  match ev with Fetch _ _ => true | _ => false end.

Definition countIf (p : Event -> bool) (tr : Trace) : nat :=
  List.length (filter p tr).

(** The number of requests with method [m] that were issued. *)
Definition countRequests (m : Method) (tr : Trace) : nat :=
  countIf (isRequest m) tr.

(** The event is a request with method [m] that was rejected: the network
    failed, no response came. *)
Definition isRejected (m : Method) (ev : Event) : bool :=
  match ev with
  | Fetch req (Rejected _) => Method_eqb (method req) m
  | _ => false
  end.

Definition countRejected (m : Method) (tr : Trace) : nat :=
  countIf (isRejected m) tr.

(** The script reads the body of an answer to a request with method [m]:
    for the line about a failure. *)
Definition readsBody (m : Method) (res : Response) : bool :=
  negb (ok res)
    && match m with
       | DELETE => negb (status res =? 404)
       | POST => true
       end.

Definition bodyFails (res : Response) : bool :=
  match responseBody res with
  | BodyFailed _ => true
  | BodyText _ => false
  end.

(** The event is a request with method [m] that was answered, with a body
    the script went on to read and could not. *)
Definition isUnreadable (m : Method) (ev : Event) : bool :=
  match ev with
  | Fetch req (Resolved res) =>
      Method_eqb (method req) m && readsBody m res && bodyFails res
  | _ => false
  end.

(** The event is a request with method [m] that an exception cut short:
    the fetch was rejected, or the body could not be read. *)
Definition isCutShort (m : Method) (ev : Event) : bool :=
  isRejected m ev || isUnreadable m ev.

Definition countCutShort (m : Method) (tr : Trace) : nat :=
  countIf (isCutShort m) tr.

(** [encodeURIComponent] accepts the id of every document. *)
Definition encodable (documents : list SeedDocument) : bool :=
  forallb (fun doc => negb (Uri.hasLoneSurrogate (id doc))) documents.

(** The event is an index request answered with a success status
    ([answer = true]) or with another status ([answer = false]). *)
Definition isIndexAnswer (answer : bool) (ev : Event) : bool :=
  match ev with
  | Fetch req (Resolved res) =>
      Method_eqb (method req) POST && Bool.eqb (ok res) answer
  | _ => false
  end.

(** The event is a delete request that [deleteDocument] counts as done
    ([answer = true]: success or "not found") or as failed. *)
Definition isDeleteAnswer (answer : bool) (ev : Event) : bool :=
  match ev with
  | Fetch req (Resolved res) =>
      Method_eqb (method req) DELETE
        && Bool.eqb (ok res || (status res =? 404)) answer
  | _ => false
  end.

Definition countIndexAnswers (answer : bool) (tr : Trace) : nat :=
  countIf (isIndexAnswer answer) tr.

Definition countDeleteAnswers (answer : bool) (tr : Trace) : nat :=
  countIf (isDeleteAnswer answer) tr.

(** The lines on the error stream. *)
Fixpoint stderr (tr : Trace) : list string :=
  match tr with
  | [] => []
  | Error line :: rest => line :: stderr rest
  | _ :: rest => stderr rest
  end.

(** The lines on the output stream. *)
Fixpoint stdout (tr : Trace) : list string :=
  match tr with
  | [] => []
  | Log line :: rest => line :: stdout rest
  | _ :: rest => stdout rest
  end.

(** [s] occurs inside [line]. *)
Definition occursIn (s line : string) : Prop :=
  exists before after, line = before +++ s +++ after.




(** The first byte of [line] is [c]. *)
Definition startsWith (c : ascii) (line : string) : bool :=
  match line with
  | String d _ => Ascii.eqb c d
  | EmptyString => false
  end.

(** The event is no console line, or a line that begins with a blank: the
    per-document lines of the two loops are the indented ones. *)
Definition indented (ev : Event) : bool :=
  match ev with
  | Fetch _ _ => true
  | Log line | Error line => startsWith " " line
  end.

Fixpoint allDigits (s : string) : bool :=
  match s with
  | EmptyString => true
  | String c rest => Uri.isDigit c && allDigits rest
  end.

(** The requests of a trace, in the order they were issued. *)
Definition requestsOf (tr : Trace) : list Request := map fst (exchanges tr).

(** The requests [main] sets out to issue over the documents of the seed
    file: with [--clean] a delete per document, then an index request per
    document, each in file order. *)
Definition plannedRequests (env : Env) (clean : bool)
    (documents : list SeedDocument) : list Request :=
  (if clean then map (deleteRequestFor env) documents else [])
    ++ map (indexRequest env) documents.

(** The index requests among [reqs]. *)
Definition indexRequestsOf (reqs : list Request) : list Request :=
  filter (fun req => Method_eqb (method req) POST) reqs.

(** Every character of [s] is one [encodeURIComponent] leaves alone. *)
Fixpoint allUnreserved (s : string) : bool :=
  match s with
  | EmptyString => true
  | String c rest => Uri.unreserved c && allUnreserved rest
  end.

(** The console call that follows an answer to a delete request: the
    line of [deleteDocument] about it or, when the body it wants to print
    cannot be read, the line of the handler of [main()]. *)
Definition deleteReport (docId : string) (res : Response) : Event :=
  if ok res then Log (deletedLine docId)
  else if status res =? 404 then Log (notFoundLine docId)
  else match responseBody res with
       | BodyText text => Error (deleteFailedLine docId res text)
       | BodyFailed err => Error (fatalLine err)
       end.

(** The console call that follows an answer to an index request. *)
Definition indexReport (doc : SeedDocument) (res : Response) : Event :=
  if ok res then Log (indexedLine doc)
  else match responseBody res with
       | BodyText text => Error (indexFailedLine doc res text)
       | BodyFailed err => Error (fatalLine err)
       end.

(** ** Sample inputs *)

Module Sample.

(** The key comes from the fallback variable. *)
Definition env : Env :=
  fun name =>
    if String.eqb name "API_URL" then Some "http://localhost:8787"
    else if String.eqb name "API_KEY_WRITER" then Some "writer-key"
    else None.

Definition envNoUrl : Env :=
  fun name => if String.eqb name "API_KEY" then Some "key" else None.

Definition envNoKey : Env :=
  fun name =>
    if String.eqb name "API_URL" then Some "http://localhost:8787" else None.

(** [API_KEY] is set, to the empty string; there is no fallback. *)
Definition envEmptyKey : Env :=
  fun name =>
    if String.eqb name "API_URL" then Some "http://localhost:8787"
    else if String.eqb name "API_KEY" then Some EmptyString
    else None.

(** [API_KEY] is set, to the empty string; the fallback has a value. *)
Definition envEmptyKeyWithWriter : Env :=
  fun name =>
    if String.eqb name "API_URL" then Some "http://localhost:8787"
    else if String.eqb name "API_KEY" then Some EmptyString
    else if String.eqb name "API_KEY_WRITER" then Some "writer-key"
    else None.

Definition argvPlain : list string := ["node"; "reindex.ts"].
Definition argvClean : list string := ["node"; "reindex.ts"; "--clean"].

Definition docA : SeedDocument :=
  {| id := "guide/intro"; text := "Getting started"; metadata := None |}.
Definition docB : SeedDocument :=
  {| id := "faq #2?"; text := "Questions";
     metadata := Some [("lang", "en")] |}.

Definition answer (code : nat) (text : string) : FetchResult :=
  Resolved {| status := code; responseBody := BodyText text |}.

(** An answer whose body cannot be read: the connection is lost after
    the status line. *)
Definition cutOff (code : nat) : FetchResult :=
  Resolved {| status := code; responseBody := BodyFailed "terminated" |}.

(** An id with a lone surrogate (in JSON: backslash-u d800) and a slash. *)
Definition docBad : SeedDocument :=
  {| id := String (ascii_of_nat 237) (String (ascii_of_nat 160)
             (String (ascii_of_nat 128) "/x"));
     text := "Broken id"; metadata := None |}.

(** The service accepts everything. *)
Definition netOk : Network := fun _ _ => answer 200 "{}".

(** The service cannot be reached. *)
Definition netDown : Network := fun _ _ => Rejected "fetch failed".

(** Deletes fail on the server, index requests succeed. *)
Definition netDeleteFails : Network :=
  fun _ req =>
    match method req with
    | DELETE => answer 500 "delete failed"
    | POST => answer 200 "{}"
    end.

(** Nothing is there to delete, and [docB] is refused. *)
Definition netRefusesB : Network :=
  fun _ req =>
    match method req, body req with
    | DELETE, _ => answer 404 "not found"
    | POST, Some doc =>
        if String.eqb (id doc) (id docB) then answer 422 "bad document"
        else answer 201 "{}"
    | POST, None => answer 400 "no body"
    end.

(** Every answer is a 500 whose body cannot be read. *)
Definition netCutOff : Network := fun _ _ => cutOff 500.

End Sample.

(** * Properties *)

Ltac run_steps :=
  cbv [bind ret catch console_log console_error emit when process_exit].

Ltac flatten_trace :=
  cbn [List.app]; rewrite <- ?List.app_assoc; cbn [List.app].

Ltac flatten_trace_in H :=
  cbn [List.app] in H; rewrite <- ?List.app_assoc in H; cbn [List.app] in H.

(** ** Strings *)

Lemma append_empty_r (s : string) : s +++ EmptyString = s.
Proof. induction s as [|c s IH]; cbn; [reflexivity | now rewrite IH]. Qed.

Lemma append_assoc_string (a b c : string) : (a +++ b) +++ c = a +++ b +++ c.
Proof. induction a as [|x a IH]; cbn; [reflexivity | now rewrite IH]. Qed.

Lemma append_cancel_l (p a b : string) : p +++ a = p +++ b -> a = b.
Proof.
  induction p as [|x p IH]; cbn; intros H; [assumption|].
  injection H as H. now apply IH.
Qed.

Lemma startsWith_unique a b line :
  startsWith a line = true -> startsWith b line = true -> a = b.
Proof.
  destruct line as [|c rest]; cbn; [discriminate|].
  intros Ha Hb. apply Ascii.eqb_eq in Ha, Hb. congruence.
Qed.

Lemma string_of_uint_digits (d : Decimal.uint) :
  allDigits (NilEmpty.string_of_uint d) = true.
Proof. induction d; cbn; auto. Qed.

Lemma num_digits n : allDigits (Js.num n) = true.
Proof. apply string_of_uint_digits. Qed.

Lemma num_inj a b : Js.num a = Js.num b -> a = b.
Proof.
  unfold Js.num. intros H.
  apply (f_equal NilEmpty.uint_of_string) in H.
  rewrite !NilEmpty.usu in H. injection H as H.
  apply (f_equal Nat.of_uint) in H.
  now rewrite !DecimalNat.Unsigned.of_to in H.
Qed.

(** Two runs of digits, each followed by a blank: equal texts have equal
    parts. *)
Lemma digits_then_blank a b x y :
  allDigits a = true -> allDigits b = true ->
  a +++ String " " x = b +++ String " " y -> a = b /\ x = y.
Proof.
  revert b. induction a as [|c a IH]; intros [|d b] Ha Hb H; cbn in *.
  - injection H as H. now split.
  - injection H as Hc _. subst d. discriminate.
  - injection H as Hc _. subst c. discriminate.
  - injection H as Hc H. subst d.
    apply andb_prop in Ha, Hb.
    destruct (IH b (proj2 Ha) (proj2 Hb) H) as [-> ->]. now split.
Qed.




(** ** One document *)

Section OneDocument.

Variable env : Env.
Variable net : Network.

(** [deleteDocument], case by case. *)
Lemma deleteDocument_run docId tr :
  deleteDocument env net docId tr =
    if Uri.hasLoneSurrogate docId then (Throw Js.uriError, tr)
    else
      let req := deleteRequest env (Uri.percentEncode docId) in
      match net (exchanges tr) req with
      | Rejected err => (Throw err, tr ++ [Fetch req (Rejected err)])
      | Resolved res =>
          let sent := tr ++ [Fetch req (Resolved res)] in
          if ok res then (Ret true, sent ++ [Log (deletedLine docId)])
          else if status res =? 404
          then (Ret true, sent ++ [Log (notFoundLine docId)])
          else match responseBody res with
               | BodyText text =>
                   (Ret false, sent ++ [Error (deleteFailedLine docId res text)])
               | BodyFailed err => (Throw err, sent)
               end
      end.
Proof.
  unfold deleteDocument, encodeURIComponent, Uri.encodeURIComponent.
  destruct (Uri.hasLoneSurrogate docId); [reflexivity|].
  unfold bind at 1. unfold ret at 1. unfold bind at 1. unfold fetch.
  cbv zeta.
  destruct (net (exchanges tr) (deleteRequest env (Uri.percentEncode docId)))
    as [res|err]; [|reflexivity].
  destruct (ok res); [reflexivity|].
  destruct (status res =? 404); [reflexivity|].
  unfold res_text. destruct (responseBody res); reflexivity.
Qed.

(** [indexDocument], case by case. *)
Lemma indexDocument_run doc tr :
  indexDocument env net doc tr =
    let req := indexRequest env doc in
    match net (exchanges tr) req with
    | Rejected err => (Throw err, tr ++ [Fetch req (Rejected err)])
    | Resolved res =>
        let sent := tr ++ [Fetch req (Resolved res)] in
        if ok res then (Ret true, sent ++ [Log (indexedLine doc)])
        else match responseBody res with
             | BodyText text =>
                 (Ret false, sent ++ [Error (indexFailedLine doc res text)])
             | BodyFailed err => (Throw err, sent)
             end
    end.
Proof.
  unfold indexDocument. unfold bind at 1. unfold fetch. cbv zeta.
  destruct (net (exchanges tr) (indexRequest env doc)) as [res|err];
    [|reflexivity].
  destruct (ok res); [reflexivity|].
  unfold res_text. destruct (responseBody res); reflexivity.
Qed.

End OneDocument.

(** ** The two loops *)

Section Loops.

Variable env : Env.
Variable net : Network.

Lemma delete_loop_events (documents : list SeedDocument) :
  forall tr, exists evs out,
    forOf documents (deleteStep env net) tt tr = (out, tr ++ evs)
    /\ DeleteEvents env documents evs out.
Proof.
  induction documents as [|doc rest IH]; intros tr.
  - exists [], (Ret tt). rewrite app_nil_r. split; [reflexivity | constructor].
  - cbn [forOf]. unfold bind at 1. unfold deleteStep at 1.
    unfold bind at 1. rewrite deleteDocument_run. cbv zeta.
    destruct (Uri.hasLoneSurrogate (id doc)) eqn:Henc.
    { exists [], (Throw Js.uriError). rewrite app_nil_r.
      split; [reflexivity | now constructor]. }
    destruct (net (exchanges tr) (deleteRequest env (Uri.percentEncode (id doc))))
      as [res|err] eqn:Hnet.
    2:{ eexists _, (Throw err). split; [reflexivity | now constructor]. }
    destruct (ok res) eqn:Hok; [|destruct (status res =? 404) eqn:H404;
      [|destruct (responseBody res) as [text|err] eqn:Hbody]].
    + unfold ret at 1.
      match goal with |- context [forOf rest _ tt ?t] =>
        destruct (IH t) as (evs & out & Hrun & Hev) end.
      rewrite Hrun. flatten_trace.
      eexists _, out. split; [reflexivity|]. now apply DeleteOk.
    + unfold ret at 1.
      match goal with |- context [forOf rest _ tt ?t] =>
        destruct (IH t) as (evs & out & Hrun & Hev) end.
      rewrite Hrun. flatten_trace.
      eexists _, out. split; [reflexivity|].
      apply Nat.eqb_eq in H404. now apply DeleteNotFound.
    + unfold ret at 1.
      match goal with |- context [forOf rest _ tt ?t] =>
        destruct (IH t) as (evs & out & Hrun & Hev) end.
      rewrite Hrun. flatten_trace.
      eexists _, out. split; [reflexivity|].
      apply Nat.eqb_neq in H404. now apply DeleteFailed.
    + eexists _, (Throw err). split; [reflexivity|].
      apply Nat.eqb_neq in H404. now apply DeleteUnreadable.
Qed.

Lemma index_loop_events (documents : list SeedDocument) :
  forall st tr, exists evs out,
    forOf documents (indexStep env net) st tr = (out, tr ++ evs)
    /\ IndexEvents env documents st evs out.
Proof.
  induction documents as [|doc rest IH]; intros [success failed] tr.
  - exists [], (Ret (success, failed)). rewrite app_nil_r.
    split; [reflexivity | constructor].
  - cbn [forOf]. unfold bind at 1. unfold indexStep at 1.
    unfold bind at 1. rewrite indexDocument_run. cbv zeta.
    destruct (net (exchanges tr) (indexRequest env doc)) as [res|err] eqn:Hnet.
    2:{ eexists _, (Throw err). split; [reflexivity | constructor]. }
    destruct (ok res) eqn:Hok;
      [|destruct (responseBody res) as [text|err] eqn:Hbody].
    + unfold ret at 1.
      match goal with |- context [forOf rest _ ?s ?t] =>
        destruct (IH s t) as (evs & out & Hrun & Hev) end.
      rewrite Hrun. flatten_trace.
      eexists _, out. split; [reflexivity|]. now apply IndexOk.
    + unfold ret at 1.
      match goal with |- context [forOf rest _ ?s ?t] =>
        destruct (IH s t) as (evs & out & Hrun & Hev) end.
      rewrite Hrun. flatten_trace.
      eexists _, out. split; [reflexivity|]. now apply IndexFailed.
    + eexists _, (Throw err). split; [reflexivity|]. now apply IndexUnreadable.
Qed.

(** Neither loop ends the process. *)
Lemma delete_events_no_exit documents evs out :
  DeleteEvents env documents evs out -> forall code, out <> Exit code.
Proof. induction 1; intros code; try apply IHDeleteEvents; discriminate. Qed.

Lemma index_events_no_exit documents st evs out :
  IndexEvents env documents st evs out -> forall code, out <> Exit code.
Proof. induction 1; intros code; try apply IHIndexEvents; discriminate. Qed.

End Loops.

(** ** The run as a whole *)

Section Runs.

Variable env : Env.
Variable argv : list string.
Variable seedFile : SeedFile.
Variable net : Network.

Let theTrace := trace env argv seedFile net.
Let theExitCode := exitCode env argv seedFile net.

(** Without the URL nothing but the three hint lines happens. *)
Lemma run_missing_url :
  Js.truthy (API_URL env) = false ->
  theTrace = missingUrlErrors /\ theExitCode = 1.
Proof.
  intros H. unfold theTrace, theExitCode, trace, exitCode, script.
  rewrite H. split; reflexivity.
Qed.

Lemma run_missing_key :
  Js.truthy (API_URL env) = true ->
  Js.truthy (API_KEY env) = false ->
  theTrace = missingKeyErrors /\ theExitCode = 1.
Proof.
  intros Hu Hk. unfold theTrace, theExitCode, trace, exitCode, script.
  rewrite Hu, Hk. split; reflexivity.
Qed.

Lemma run_unreadable_seed err :
  configured env -> seedFile = Unreadable err ->
  theTrace = banner env argv ++ [Error (fatalLine err)] /\ theExitCode = 1.
Proof.
  intros [Hu Hk] Hs.
  unfold theTrace, theExitCode, trace, exitCode, script.
  rewrite Hu, Hk. unfold main, loadSeedData. rewrite Hs.
  split; reflexivity.
Qed.

Lemma script_main documents :
  configured env -> seedFile = Parsed documents ->
  exists evs out,
    script env argv seedFile net [] =
      (out, banner env argv ++ Log (loadedLine documents) :: evs)
    /\ MainRun env documents (shouldClean argv) evs (exitCodeOf out).
Proof.
  intros [Hu Hk] Hs.
  unfold script. rewrite Hu, Hk. cbn [negb].
  unfold main, loadSeedData. rewrite Hs.
  fold (shouldClean argv). unfold banner.
  destruct (shouldClean argv) eqn:Hclean; run_steps.
  - match goal with
    | |- context [forOf documents (deleteStep env net) tt ?t] =>
        destruct (delete_loop_events env net documents t)
          as (devs & dout & Hdel & Hdev)
    end.
    rewrite Hdel. destruct dout as [[]|err|code]; [| |exfalso; eapply delete_events_no_exit; [exact Hdev | reflexivity]].
    + match goal with
      | |- context [forOf documents (indexStep env net) (0, 0) ?t] =>
          destruct (index_loop_events env net documents (0, 0) t)
            as (ievs & iout & Hidx & Hiev)
      end.
      rewrite Hidx.
      destruct iout as [[success failed]|err|code]; [| |exfalso; eapply index_events_no_exit; [exact Hiev | reflexivity]].
      * pose proof (RunCompleted (CleanDone Hdev) Hiev) as R.
        destruct (0 <? failed); eexists _, _;
          (split; [flatten_trace; reflexivity | flatten_trace_in R; exact R]).
      * pose proof (RunIndexRejected (CleanDone Hdev) Hiev) as R.
        eexists _, _.
        split; [flatten_trace; reflexivity | flatten_trace_in R; exact R].
    + pose proof (RunDeleteRejected eq_refl Hdev) as R.
      eexists _, _.
      split; [flatten_trace; reflexivity | flatten_trace_in R; exact R].
  - match goal with
    | |- context [forOf documents (indexStep env net) (0, 0) ?t] =>
        destruct (index_loop_events env net documents (0, 0) t)
          as (ievs & iout & Hidx & Hiev)
    end.
    rewrite Hidx.
    destruct iout as [[success failed]|err|code]; [| |exfalso; eapply index_events_no_exit; [exact Hiev | reflexivity]].
    + pose proof (RunCompleted (CleanSkipped env documents) Hiev) as R.
      destruct (0 <? failed); eexists _, _;
        (split; [flatten_trace; reflexivity | flatten_trace_in R; exact R]).
    + pose proof (RunIndexRejected (CleanSkipped env documents) Hiev) as R.
      eexists _, _.
      split; [flatten_trace; reflexivity | flatten_trace_in R; exact R].
Qed.

Lemma run_main documents :
  configured env -> seedFile = Parsed documents ->
  exists evs,
    theTrace = banner env argv ++ Log (loadedLine documents) :: evs
    /\ MainRun env documents (shouldClean argv) evs theExitCode.
Proof.
  intros Hc Hs. destruct (script_main Hc Hs) as (evs & out & Hrun & Hshape).
  exists evs. unfold theTrace, theExitCode, trace, exitCode.
  rewrite Hrun. split; [reflexivity | exact Hshape].
Qed.

End Runs.

(** ** Counting the events of the loops *)

Lemma countIf_app p (a b : Trace) :
  countIf p (a ++ b) = countIf p a + countIf p b.
Proof. unfold countIf. now rewrite filter_app, length_app. Qed.

Lemma countIf_cons p ev (tr : Trace) :
  countIf p (ev :: tr) = (if p ev then 1 else 0) + countIf p tr.
Proof. unfold countIf. cbn [filter]. now destruct (p ev). Qed.

Lemma countIf_nil p : countIf p [] = 0.
Proof. reflexivity. Qed.

Ltac count_events :=
  unfold countRequests, countRejected, countCutShort,
    countIndexAnswers, countDeleteAnswers in *;
  repeat (rewrite countIf_app in * || rewrite countIf_cons in *
          || rewrite countIf_nil in *);
  cbn [isRequest isRejected isCutShort isUnreadable isIndexAnswer
       isDeleteAnswer method deleteRequestFor deleteRequest indexRequest
       Method_eqb andb orb] in *.

(** Puts what is known about an answer into the tests on it. *)
Ltac settle_answers :=
  unfold readsBody, bodyFails in *;
  repeat match goal with
         | H : status _ <> 404 |- _ => apply Nat.eqb_neq in H
         | H : status _ = 404 |- _ => apply Nat.eqb_eq in H
         end;
  repeat match goal with
         | H : ok _ = _ |- _ => rewrite H in *
         | H : (status _ =? 404) = _ |- _ => rewrite H in *
         | H : responseBody _ = _ |- _ => rewrite H in *
         end;
  cbn [negb andb orb Bool.eqb List.length] in *.

Section Counting.

Variable env : Env.

Ltac by_events := induction 1; count_events; settle_answers; try lia.

Lemma delete_events_no_index m documents evs out :
  DeleteEvents env documents evs out ->
  countRequests POST evs = 0 /\ countRejected POST evs = 0
  /\ countIndexAnswers m evs = 0.
Proof. by_events. Qed.

Lemma delete_events_no_index_cut documents evs out :
  DeleteEvents env documents evs out -> countCutShort POST evs = 0.
Proof. by_events. Qed.

Lemma delete_events_at_most documents evs out :
  DeleteEvents env documents evs out ->
  countRequests DELETE evs <= List.length documents.
Proof. by_events. Qed.

Lemma delete_events_completed documents evs out :
  DeleteEvents env documents evs out ->
  out = Ret tt ->
  countRequests DELETE evs = List.length documents
  /\ countRejected DELETE evs = 0.
Proof.
  induction 1; intros Hout; count_events; settle_answers; try discriminate;
    try specialize (IHDeleteEvents Hout); lia.
Qed.

(** A delete loop that runs to its end met no exception: every id could
    be encoded and no request was cut short. *)
Lemma delete_events_undisturbed documents evs out :
  DeleteEvents env documents evs out ->
  out = Ret tt ->
  countCutShort DELETE evs = 0 /\ encodable documents = true.
Proof.
  induction 1; intros Hout; count_events; settle_answers; try discriminate;
    try specialize (IHDeleteEvents Hout); unfold encodable in *;
    cbn [forallb]; try rewrite H; cbn [negb andb]; try tauto.
  all: split; [lia | tauto].
Qed.

(** A delete loop ended by an exception: unless an id could not be
    encoded, one request was cut short. *)
Lemma delete_events_thrown documents evs out :
  DeleteEvents env documents evs out ->
  forall err, out = Throw err ->
  encodable documents = true ->
  countCutShort DELETE evs = 1.
Proof.
  induction 1; intros e He Henc; try discriminate;
    unfold encodable in Henc; cbn [forallb] in Henc;
    apply andb_prop in Henc; destruct Henc as [Hdoc Hrest];
    try (rewrite H in Hdoc; discriminate Hdoc);
    try specialize (IHDeleteEvents e He Hrest);
    count_events; settle_answers; lia.
Qed.

Lemma index_events_no_delete m documents st evs out :
  IndexEvents env documents st evs out ->
  countRequests DELETE evs = 0 /\ countRejected DELETE evs = 0
  /\ countDeleteAnswers m evs = 0.
Proof. by_events. Qed.

Lemma index_events_no_delete_cut documents st evs out :
  IndexEvents env documents st evs out -> countCutShort DELETE evs = 0.
Proof. by_events. Qed.

Lemma index_events_at_most documents st evs out :
  IndexEvents env documents st evs out ->
  countRequests POST evs <= List.length documents
  /\ countIndexAnswers true evs <= List.length documents.
Proof. by_events. Qed.

(** When the index loop runs to its end, every document was sent, and
    the two counters have grown by the numbers of the two kinds of
    answer. *)
Lemma index_events_completed documents st evs out :
  IndexEvents env documents st evs out ->
  forall success failed, out = Ret (success, failed) ->
  countRequests POST evs = List.length documents
  /\ countRejected POST evs = 0
  /\ success = fst st + countIndexAnswers true evs
  /\ failed = snd st + countIndexAnswers false evs
  /\ success + failed = fst st + snd st + List.length documents.
Proof.
  induction 1; intros s f Hout; count_events; settle_answers;
    cbn [fst snd] in *.
  - inversion Hout; subst. cbn. lia.
  - specialize (IHIndexEvents s f Hout). lia.
  - specialize (IHIndexEvents s f Hout). lia.
  - discriminate.
  - discriminate.
Qed.

Lemma index_events_undisturbed documents st evs out :
  IndexEvents env documents st evs out ->
  forall counters, out = Ret counters -> countCutShort POST evs = 0.
Proof.
  induction 1; intros c Hout; count_events; settle_answers;
    try discriminate; try specialize (IHIndexEvents c Hout); lia.
Qed.

Lemma index_events_thrown documents st evs out :
  IndexEvents env documents st evs out ->
  forall err, out = Throw err -> countCutShort POST evs = 1.
Proof.
  induction 1; intros e He; try discriminate;
    try specialize (IHIndexEvents e He);
    count_events; settle_answers; lia.
Qed.



End Counting.
(** ** Where the events of a run sit *)

Lemma in_stderr line (tr : Trace) : In (Error line) tr <-> In line (stderr tr).
Proof.
  induction tr as [|[req res|l|l] tr IH]; cbn [stderr In].
  - tauto.
  - split; [intros [H|H]; [discriminate | tauto] | tauto].
  - split; [intros [H|H]; [discriminate | tauto] | tauto].
  - split; intros [H|H]; try tauto; left; congruence.
Qed.

Lemma in_stdout line (tr : Trace) : In (Log line) tr <-> In line (stdout tr).
Proof.
  induction tr as [|[req res|l|l] tr IH]; cbn [stdout In].
  - tauto.
  - split; [intros [H|H]; [discriminate | tauto] | tauto].
  - split; intros [H|H]; try tauto; left; congruence.
  - split; [intros [H|H]; [discriminate | tauto] | tauto].
Qed.

Lemma fetch_after_banner env argv line evs req res :
  In (Fetch req res) (banner env argv ++ Log line :: evs) ->
  In (Fetch req res) evs.
Proof.
  unfold banner. cbn [List.app In].
  intros H. repeat (destruct H as [H|H]; [discriminate|]). exact H.
Qed.



(** ** Index calls that fail *)




Lemma clean_phase_counts env documents clean cevs :
  CleanPhase env documents clean cevs ->
  countRequests POST cevs = 0
  /\ countRejected POST cevs = 0
  /\ (forall m, countIndexAnswers m cevs = 0)
  /\ countRejected DELETE cevs = 0
  /\ countRequests DELETE cevs = if clean then List.length documents else 0.
Proof.
  intros [|devs Hdev].
  - repeat split.
  - destruct (delete_events_completed Hdev eq_refl) as [Hn Hr].
    destruct (delete_events_no_index true Hdev) as (H1 & H2 & _).
    assert (H3 : forall m, countIndexAnswers m devs = 0)
      by (intros m; apply (delete_events_no_index m Hdev)).
    repeat split; try (intros m; specialize (H3 m)); count_events; lia.
Qed.

(** No event before the "Loaded" line is a request. *)
Lemma banner_counts env argv p :
  (forall line, p (Log line) = false) ->
  countIf p (banner env argv) = 0.
Proof.
  intros Hp. unfold banner. rewrite !countIf_cons, !Hp. reflexivity.
Qed.

Lemma clean_phase_undisturbed env documents clean cevs :
  CleanPhase env documents clean cevs ->
  countCutShort DELETE cevs = 0
  /\ countCutShort POST cevs = 0
  /\ (clean = true -> encodable documents = true).
Proof.
  intros [|devs Hdev].
  - repeat split. discriminate.
  - destruct (delete_events_undisturbed Hdev eq_refl) as [H1 H2].
    pose proof (delete_events_no_index_cut Hdev) as H3.
    repeat split; try (intros _; exact H2); count_events; lia.
Qed.

(** ** Requests without [--clean] *)

(** C2 (as amended).  A configured run without [--clean] over a seed file
    of N documents issues no delete request and at most N index requests;
    it issues exactly N index requests when none of them is cut short by
    an exception, that is, when no index request is rejected and no body
    that the script reads fails to be read. *)
Theorem C2_no_clean_index_only env argv documents net :
  configured env ->
  shouldClean argv = false ->
  let tr := trace env argv (Parsed documents) net in
  countRequests DELETE tr = 0
  /\ countRequests POST tr <= List.length documents
  /\ (countCutShort POST tr = 0 -> countRequests POST tr = List.length documents).
Proof.
  intros Hc Hclean tr.
  destruct (run_main argv net Hc (@eq_refl _ (Parsed documents)))
    as (evs & Ht & Hrun).
  subst tr. rewrite Ht. clear Ht.
  pose proof (banner_counts env argv (isRequest DELETE) (fun _ => eq_refl)) as HbD.
  pose proof (banner_counts env argv (isRequest POST) (fun _ => eq_refl)) as HbP.
  pose proof (banner_counts env argv (isCutShort POST) (fun _ => eq_refl)) as HbC.
  inversion Hrun as [devs err Hcl Hdev Hevs Hcode
                    | cevs ievs err Hcl Hiev Hevs Hcode
                    | cevs ievs success failed Hcl Hiev Hevs Hcode]; subst evs.
  - congruence.
  - rewrite Hclean in Hcl. inversion Hcl; subst cevs.
    destruct (index_events_no_delete true Hiev) as (H1 & _ & _).
    destruct (index_events_at_most Hiev) as [H2 _].
    pose proof (index_events_thrown Hiev eq_refl) as H3.
    count_events. repeat split; lia.
  - rewrite Hclean in Hcl. inversion Hcl; subst cevs.
    destruct (index_events_no_delete true Hiev) as (H1 & _ & _).
    destruct (index_events_completed Hiev eq_refl) as (H2 & H3 & _).
    count_events. repeat split; lia.
Qed.

Lemma C2_witness :
  let tr := trace Sample.env Sample.argvPlain
              (Parsed [Sample.docA; Sample.docB]) Sample.netRefusesB in
  countRequests DELETE tr = 0
  /\ countRequests POST tr <= 2
  /\ (countCutShort POST tr = 0 -> countRequests POST tr = 2).
Proof.
  apply (@C2_no_clean_index_only Sample.env Sample.argvPlain
           [Sample.docA; Sample.docB] Sample.netRefusesB).
  - split; reflexivity.
  - reflexivity.
Defined.

(** C2 as stated fails when the network does: with two documents and a
    service that cannot be reached, the first index request is rejected,
    the run ends in the handler of [main()], and one request was issued,
    not two. *)
Lemma C2_counterexample :
  ~ (countRequests POST
       (trace Sample.env Sample.argvPlain
          (Parsed [Sample.docA; Sample.docB]) Sample.netDown)
     = List.length [Sample.docA; Sample.docB]
     /\ countRequests DELETE
          (trace Sample.env Sample.argvPlain
             (Parsed [Sample.docA; Sample.docB]) Sample.netDown) = 0).
Proof. vm_compute. intros [H _]. discriminate H. Qed.

(** ** Requests with [--clean] *)

Lemma countIf_zero_in p (tr : Trace) ev :
  countIf p tr = 0 -> In ev tr -> p ev = false.
Proof.
  induction tr as [|e tr IH]; intros Hc Hin; [destruct Hin|].
  rewrite countIf_cons in Hc. destruct Hin as [->|Hin].
  - destruct (p ev); [discriminate | reflexivity].
  - apply IH; [lia | assumption].
Qed.

(** When a trace splits into a part without index requests followed by a
    part without delete requests, every delete request comes before every
    index request. *)
Lemma deletes_then_indexes (a b : Trace) :
  countRequests POST a = 0 ->
  countRequests DELETE b = 0 ->
  forall i j evd evp,
    nth_error (a ++ b) i = Some evd -> isRequest DELETE evd = true ->
    nth_error (a ++ b) j = Some evp -> isRequest POST evp = true ->
    i < j.
Proof.
  intros Ha Hb i j evd evp Hi Hd Hj Hp.
  assert (Hia : i < List.length a).
  { destruct (Nat.lt_ge_cases i (List.length a)) as [|Hge]; [assumption|].
    rewrite nth_error_app2 in Hi by assumption.
    apply nth_error_In in Hi.
    pose proof (countIf_zero_in _ _ _ Hb Hi). congruence. }
  assert (Hjb : List.length a <= j).
  { destruct (Nat.lt_ge_cases j (List.length a)) as [Hlt|]; [|assumption].
    rewrite nth_error_app1 in Hj by assumption.
    apply nth_error_In in Hj.
    pose proof (countIf_zero_in _ _ _ Ha Hj). congruence. }
  lia.
Qed.

(** C3 (as amended).  A configured run with [--clean] over a seed file of
    N documents issues at most N delete requests, and every delete
    request it issues comes before every index request it issues.  It
    issues exactly N delete requests when no exception ends the delete
    loop early: [encodeURIComponent] accepts every id (no lone
    surrogate), no delete request is rejected, and no body that the
    script reads fails to be read. *)
Theorem C3_clean_deletes_first env argv documents net :
  configured env ->
  shouldClean argv = true ->
  let tr := trace env argv (Parsed documents) net in
  countRequests DELETE tr <= List.length documents
  /\ (encodable documents = true -> countCutShort DELETE tr = 0 ->
      countRequests DELETE tr = List.length documents)
  /\ (forall i j evd evp,
        nth_error tr i = Some evd -> isRequest DELETE evd = true ->
        nth_error tr j = Some evp -> isRequest POST evp = true ->
        i < j).
Proof.
  intros Hc Hclean tr.
  destruct (run_main argv net Hc (@eq_refl _ (Parsed documents)))
    as (evs & Ht & Hrun).
  subst tr. rewrite Ht. clear Ht.
  pose proof (banner_counts env argv (isRequest DELETE) (fun _ => eq_refl)) as HbD.
  pose proof (banner_counts env argv (isRequest POST) (fun _ => eq_refl)) as HbP.
  pose proof (banner_counts env argv (isCutShort DELETE) (fun _ => eq_refl)) as HbC.
  inversion Hrun as [devs err Hcl Hdev Hevs Hcode
                    | cevs ievs err Hcl Hiev Hevs Hcode
                    | cevs ievs success failed Hcl Hiev Hevs Hcode]; subst evs.
  - pose proof (delete_events_at_most Hdev) as H1.
    destruct (delete_events_no_index true Hdev) as (H3 & _ & _).
    split; [|split].
    + count_events. lia.
    + intros Henc Hcut.
      pose proof (delete_events_thrown Hdev eq_refl Henc) as H2.
      count_events. lia.
    + rewrite <- (app_nil_r (banner env argv ++ _)).
      apply deletes_then_indexes; [|reflexivity].
      count_events. lia.
  - rewrite Hclean in Hcl.
    destruct (clean_phase_counts Hcl) as (H1 & _ & _ & H2 & H3).
    destruct (index_events_no_delete true Hiev) as (H4 & H5 & _).
    split; [|split].
    + count_events. lia.
    + intros _ _. count_events. lia.
    + change (banner env argv ++ Log (loadedLine documents)
                :: cevs ++ Log indexingLine :: ievs ++ [Error (fatalLine err)])
        with (banner env argv ++ (Log (loadedLine documents) :: cevs)
                ++ Log indexingLine :: ievs ++ [Error (fatalLine err)]).
      rewrite app_assoc.
      apply deletes_then_indexes; count_events; lia.
  - rewrite Hclean in Hcl.
    destruct (clean_phase_counts Hcl) as (H1 & _ & _ & H2 & H3).
    destruct (index_events_no_delete true Hiev) as (H4 & H5 & _).
    split; [|split].
    + count_events. lia.
    + intros _ _. count_events. lia.
    + change (banner env argv ++ Log (loadedLine documents)
                :: cevs ++ Log indexingLine :: ievs
                ++ [Log EmptyString; Log (summaryLine success failed)])
        with (banner env argv ++ (Log (loadedLine documents) :: cevs)
                ++ Log indexingLine :: ievs
                ++ [Log EmptyString; Log (summaryLine success failed)]).
      rewrite app_assoc.
      apply deletes_then_indexes; count_events; lia.
Qed.

Lemma C3_witness :
  let tr := trace Sample.env Sample.argvClean
              (Parsed [Sample.docA; Sample.docB]) Sample.netRefusesB in
  countRequests DELETE tr <= 2
  /\ (encodable [Sample.docA; Sample.docB] = true ->
      countCutShort DELETE tr = 0 -> countRequests DELETE tr = 2)
  /\ (forall i j evd evp,
        nth_error tr i = Some evd -> isRequest DELETE evd = true ->
        nth_error tr j = Some evp -> isRequest POST evp = true ->
        i < j).
Proof.
  apply (@C3_clean_deletes_first Sample.env Sample.argvClean
           [Sample.docA; Sample.docB] Sample.netRefusesB).
  - split; reflexivity.
  - reflexivity.
Defined.

(** C3 as stated fails when the network does: with [--clean], two
    documents and a service that cannot be reached, the first delete
    request is rejected and the run ends there, after one delete request,
    not two. *)
Lemma C3_counterexample :
  countRequests DELETE
    (trace Sample.env Sample.argvClean
       (Parsed [Sample.docA; Sample.docB]) Sample.netDown)
  <> List.length [Sample.docA; Sample.docB].
Proof. vm_compute. discriminate. Qed.

(** ** Deleting one document *)

Lemma stderr_app (a b : Trace) : stderr (a ++ b) = stderr a ++ stderr b.
Proof.
  induction a as [|[req res|l|l] a IH]; cbn [List.app stderr];
    rewrite ?IH; reflexivity.
Qed.

Lemma stdout_app (a b : Trace) : stdout (a ++ b) = stdout a ++ stdout b.
Proof.
  induction a as [|[req res|l|l] a IH]; cbn [List.app stdout];
    rewrite ?IH; reflexivity.
Qed.

(** C4 (as amended).  A delete request answered "not found" (404) makes
    [deleteDocument] return [true] and write nothing to the error stream,
    exactly as a success answer does.  With any other status it reads the
    body: when the body can be read it returns [false] and writes one
    line to the error stream, which holds the body; when reading the body
    fails it returns nothing and prints nothing, the exception leaves
    [deleteDocument] with the reason. *)
Theorem C4_delete_not_found_counts_as_success env net docId tr res :
  Uri.hasLoneSurrogate docId = false ->
  net (exchanges tr) (deleteRequest env (Uri.percentEncode docId))
    = Resolved res ->
  let run := deleteDocument env net docId tr in
  (ok res = true \/ status res = 404 ->
     fst run = Ret true /\ stderr (snd run) = stderr tr)
  /\ (ok res = false -> status res <> 404 ->
      (forall text, responseBody res = BodyText text ->
         fst run = Ret false
         /\ stderr (snd run) = stderr tr ++ [deleteFailedLine docId res text]
         /\ occursIn text (deleteFailedLine docId res text))
      /\ (forall err, responseBody res = BodyFailed err ->
            fst run = Throw err
            /\ stderr (snd run) = stderr tr
            /\ stdout (snd run) = stdout tr)).
Proof.
  intros Henc Hnet run. subst run.
  rewrite deleteDocument_run, Henc. cbv zeta. rewrite Hnet.
  split.
  - intros Hsucc. destruct (ok res) eqn:Hok.
    + cbn [fst snd]. rewrite !stderr_app. cbn [stderr].
      now rewrite !app_nil_r.
    + destruct Hsucc as [Hsucc | H404]; [discriminate|].
      apply Nat.eqb_eq in H404. rewrite H404.
      cbn [fst snd]. rewrite !stderr_app. cbn [stderr].
      now rewrite !app_nil_r.
  - intros Hok H404. rewrite Hok.
    apply Nat.eqb_neq in H404. rewrite H404. split.
    + intros text Hbody. rewrite Hbody.
      cbn [fst snd]. rewrite !stderr_app. cbn [stderr].
      rewrite app_nil_r. repeat split.
      unfold deleteFailedLine, occursIn.
      exists ("  ✗ Failed to delete " +++ docId +++ ": "
                +++ Js.num (status res) +++ " "), EmptyString.
      rewrite append_empty_r. now rewrite <- !append_assoc_string.
    + intros err Hbody. rewrite Hbody.
      cbn [fst snd]. rewrite stderr_app, stdout_app. cbn [stderr stdout].
      now rewrite !app_nil_r.
Qed.

Lemma C4_witness :
  let run := deleteDocument Sample.env Sample.netRefusesB "guide/intro" [] in
  let res := {| status := 404; responseBody := BodyText "not found" |} in
  (ok res = true \/ status res = 404 ->
     fst run = Ret true /\ stderr (snd run) = stderr [])
  /\ (ok res = false -> status res <> 404 ->
      (forall text, responseBody res = BodyText text ->
         fst run = Ret false
         /\ stderr (snd run)
            = stderr [] ++ [deleteFailedLine "guide/intro" res text]
         /\ occursIn text (deleteFailedLine "guide/intro" res text))
      /\ (forall err, responseBody res = BodyFailed err ->
            fst run = Throw err
            /\ stderr (snd run) = stderr []
            /\ stdout (snd run) = stdout [])).
Proof.
  apply (@C4_delete_not_found_counts_as_success Sample.env Sample.netRefusesB
           "guide/intro" []
           {| status := 404; responseBody := BodyText "not found" |}).
  - reflexivity.
  - reflexivity.
Defined.

(** C4 as stated fails when the body of the answer cannot be read: the
    delete of [Sample.docA] is answered 500, which is neither a success
    nor 404, [res.text()] rejects, and [deleteDocument] neither returns
    [false] nor writes a line. *)
Lemma C4_counterexample :
  let run := deleteDocument Sample.env Sample.netCutOff (id Sample.docA) [] in
  exchanges (snd run)
  = [(deleteRequest Sample.env "guide%2Fintro", Sample.cutOff 500)]
  /\ ~ (fst run = Ret false /\ stderr (snd run) <> []).
Proof.
  split.
  - reflexivity.
  - intros [H _]. vm_compute in H. discriminate H.
Qed.

(** ** Runs in which every document is indexed *)



(** ** Missing configuration *)

(** C6.  When the API URL is missing, or the API key is missing after the
    fallback variable has been looked at (unset or empty alike), the run
    consists of the lines of one fatal error on the error stream and the
    exit with code 1: no request is issued. *)
Theorem C6_missing_configuration_is_fatal env argv seedFile net :
  Js.truthy (API_URL env) = false \/ Js.truthy (API_KEY env) = false ->
  exitCode env argv seedFile net = 1
  /\ (trace env argv seedFile net = missingUrlErrors
      \/ trace env argv seedFile net = missingKeyErrors)
  /\ countIf isFetch (trace env argv seedFile net) = 0
  /\ stdout (trace env argv seedFile net) = []
  /\ stderr (trace env argv seedFile net) <> [].
Proof.
  intros Hmissing.
  destruct (Js.truthy (API_URL env)) eqn:Hu.
  - destruct Hmissing as [Hf|Hk]; [discriminate|].
    destruct (run_missing_key env argv seedFile net Hu Hk) as [Ht Hx].
    rewrite Ht, Hx. repeat split; [now right | discriminate].
  - destruct (run_missing_url env argv seedFile net Hu) as [Ht Hx].
    rewrite Ht, Hx. repeat split; [now left | discriminate].
Qed.

Lemma C6_witness :
  exitCode Sample.envNoKey Sample.argvClean
    (Parsed [Sample.docA]) Sample.netOk = 1
  /\ (trace Sample.envNoKey Sample.argvClean (Parsed [Sample.docA]) Sample.netOk
        = missingUrlErrors
      \/ trace Sample.envNoKey Sample.argvClean (Parsed [Sample.docA]) Sample.netOk
        = missingKeyErrors)
  /\ countIf isFetch
       (trace Sample.envNoKey Sample.argvClean (Parsed [Sample.docA]) Sample.netOk) = 0
  /\ stdout (trace Sample.envNoKey Sample.argvClean (Parsed [Sample.docA]) Sample.netOk)
     = []
  /\ stderr (trace Sample.envNoKey Sample.argvClean (Parsed [Sample.docA]) Sample.netOk)
     <> [].
Proof.
  apply (@C6_missing_configuration_is_fatal Sample.envNoKey Sample.argvClean
           (Parsed [Sample.docA]) Sample.netOk).
  right. reflexivity.
Defined.

(** ** The lines of a run *)

Lemma summaryLine_inj s f s' f' :
  summaryLine s f = summaryLine s' f' -> s = s' /\ f = f'.
Proof.
  unfold summaryLine. intros H. apply append_cancel_l in H.
  change (" indexed, " +++ Js.num f +++ " failed")
    with (String " " ("indexed, " +++ Js.num f +++ " failed")) in H.
  change (" indexed, " +++ Js.num f' +++ " failed")
    with (String " " ("indexed, " +++ Js.num f' +++ " failed")) in H.
  apply digits_then_blank in H; try apply num_digits.
  destruct H as [Hs H]. apply num_inj in Hs.
  apply append_cancel_l in H.
  change (" failed") with (String " " "failed") in H.
  apply digits_then_blank in H; try apply num_digits.
  destruct H as [Hf _]. apply num_inj in Hf. now split.
Qed.

Lemma delete_events_indented env documents evs out :
  DeleteEvents env documents evs out -> forallb indented evs = true.
Proof. induction 1; cbn; auto. Qed.

Lemma index_events_indented env documents st evs out :
  IndexEvents env documents st evs out -> forallb indented evs = true.
Proof. induction 1; cbn; auto. Qed.

Lemma indented_line (evs : Trace) ev :
  forallb indented evs = true -> In ev evs -> indented ev = true.
Proof. intros H Hin. rewrite forallb_forall in H. now apply H. Qed.

Lemma clean_phase_lines env documents clean cevs ev :
  CleanPhase env documents clean cevs -> In ev cevs ->
  indented ev = true \/ ev = Log deletingLine \/ ev = Log EmptyString.
Proof.
  intros [|devs Hdev] Hin; [destruct Hin|].
  destruct Hin as [<-|Hin]; [now right; left|].
  apply in_app_or in Hin. destruct Hin as [Hin|[<-|[]]]; [|now right; right].
  left. eapply indented_line; [eapply delete_events_indented|]; eassumption.
Qed.

(** The only line of [main] that begins like the summary is the summary;
    its two numbers add up to the number of documents. *)
Lemma main_run_summary env documents clean evs code line :
  MainRun env documents clean evs code ->
  In (Log line) evs ->
  startsWith "226" line = true ->
  exists success failed,
    line = summaryLine success failed
    /\ success + failed = List.length documents.
Proof.
  intros Hrun Hin Hs.
  assert (Hind : indented (Log line) = true -> False).
  { cbn. intros Hi. pose proof (startsWith_unique _ _ _ Hi Hs). discriminate. }
  assert (Hcl : forall cevs, CleanPhase env documents clean cevs ->
                             In (Log line) cevs -> False).
  { intros cevs Hc Hi. destruct (clean_phase_lines _ Hc Hi) as [H|[H|H]].
    - auto.
    - injection H as ->. discriminate.
    - injection H as ->. discriminate. }
  assert (Hidx : forall st ievs out, IndexEvents env documents st ievs out ->
                                     In (Log line) ievs -> False).
  { intros st ievs out Hi Hin'. apply Hind.
    eapply indented_line; [eapply index_events_indented|]; eassumption. }
  inversion Hrun as [devs err Hc Hdev Hevs Hcode
                    | cevs ievs err Hc Hiev Hevs Hcode
                    | cevs ievs success failed Hc Hiev Hevs Hcode]; subst evs.
  - exfalso. destruct Hin as [H|Hin]; [injection H as <-; discriminate|].
    apply in_app_or in Hin. destruct Hin as [Hin|[H|[]]]; [|discriminate].
    apply Hind. eapply indented_line; [eapply delete_events_indented|]; eassumption.
  - exfalso. apply in_app_or in Hin. destruct Hin as [Hin|[H|Hin]].
    + eapply Hcl; eassumption.
    + injection H as <-. discriminate.
    + apply in_app_or in Hin. destruct Hin as [Hin|[H|[]]]; [|discriminate].
      eapply Hidx; eassumption.
  - apply in_app_or in Hin. destruct Hin as [Hin|[H|Hin]].
    + exfalso. eapply Hcl; eassumption.
    + injection H as <-. discriminate.
    + apply in_app_or in Hin. destruct Hin as [Hin|[H|[H|[]]]].
      * exfalso. eapply Hidx; eassumption.
      * injection H as <-. discriminate.
      * injection H as <-. exists success, failed. split; [reflexivity|].
        destruct (index_events_completed Hiev eq_refl) as (_ & _ & _ & _ & Hsum).
        exact Hsum.
Qed.

Lemma summary_not_in_loop (evs : Trace) s f :
  forallb indented evs = true -> ~ In (Log (summaryLine s f)) evs.
Proof.
  intros Hind Hin. pose proof (indented_line _ _ Hind Hin) as H. discriminate H.
Qed.

Lemma summary_not_in_clean_phase env documents clean cevs s f :
  CleanPhase env documents clean cevs -> ~ In (Log (summaryLine s f)) cevs.
Proof.
  intros Hcl Hin. destruct (clean_phase_lines _ Hcl Hin) as [H|[H|H]];
    discriminate H.
Qed.

(** The summary is printed by a run of [main] that went through both
    loops, and by no other. *)
Lemma main_run_completed env documents clean evs code s f :
  MainRun env documents clean evs code ->
  In (Log (summaryLine s f)) evs ->
  exists cevs ievs,
    CleanPhase env documents clean cevs
    /\ IndexEvents env documents (0, 0) ievs (Ret (s, f))
    /\ evs = cevs ++ Log indexingLine :: ievs
               ++ [Log EmptyString; Log (summaryLine s f)]
    /\ code = if 0 <? f then 1 else 0.
Proof.
  intros [devs err Hclean Hdev
         | cevs ievs err Hcl Hiev
         | cevs ievs success failed Hcl Hiev] Hin.
  - exfalso. destruct Hin as [H|Hin]; [discriminate|].
    apply in_app_or in Hin. destruct Hin as [Hin|[H|[]]]; [|discriminate].
    eapply summary_not_in_loop; [eapply delete_events_indented|]; eassumption.
  - exfalso. apply in_app_or in Hin. destruct Hin as [Hin|[H|Hin]].
    + eapply summary_not_in_clean_phase; eassumption.
    + discriminate.
    + apply in_app_or in Hin. destruct Hin as [Hin|[H|[]]]; [|discriminate].
      eapply summary_not_in_loop; [eapply index_events_indented|]; eassumption.
  - apply in_app_or in Hin. destruct Hin as [Hin|[H|Hin]].
    + exfalso. eapply summary_not_in_clean_phase; eassumption.
    + discriminate.
    + apply in_app_or in Hin. destruct Hin as [Hin|[H|[H|[]]]].
      * exfalso.
        eapply summary_not_in_loop; [eapply index_events_indented|]; eassumption.
      * discriminate.
      * assert (Heq : summaryLine success failed = summaryLine s f)
          by congruence.
        apply summaryLine_inj in Heq. destruct Heq as [-> ->].
        now exists cevs, ievs.
Qed.

(** ** Which requests a run issues *)

Lemma exchanges_app (a b : Trace) :
  exchanges (a ++ b) = exchanges a ++ exchanges b.
Proof.
  induction a as [|[req res|l|l] a IH]; cbn [List.app exchanges];
    rewrite ?IH; reflexivity.
Qed.

Lemma requestsOf_app (a b : Trace) :
  requestsOf (a ++ b) = requestsOf a ++ requestsOf b.
Proof. unfold requestsOf. now rewrite exchanges_app, map_app. Qed.

Lemma requestsOf_banner env argv : requestsOf (banner env argv) = [].
Proof. reflexivity. Qed.

Lemma requestsOf_log line (tr : Trace) :
  requestsOf (Log line :: tr) = requestsOf tr.
Proof. reflexivity. Qed.

Lemma requestsOf_error line (tr : Trace) :
  requestsOf (Error line :: tr) = requestsOf tr.
Proof. reflexivity. Qed.

Lemma requestsOf_fetch req res (tr : Trace) :
  requestsOf (Fetch req res :: tr) = req :: requestsOf tr.
Proof. reflexivity. Qed.

Lemma requestsOf_nil : requestsOf [] = [].
Proof. reflexivity. Qed.

Ltac list_requests :=
  repeat (rewrite requestsOf_app || rewrite requestsOf_log
          || rewrite requestsOf_error || rewrite requestsOf_fetch
          || rewrite requestsOf_nil || rewrite requestsOf_banner);
  rewrite ?app_nil_r; cbn [List.app].

Lemma delete_events_requests env documents evs out :
  DeleteEvents env documents evs out ->
  exists rest,
    map (deleteRequestFor env) documents = requestsOf evs ++ rest
    /\ (out = Ret tt -> rest = []).
Proof.
  induction 1 as [ | doc rest Henc
                   | doc rest res evs out Henc Hok Hev [r [IH1 IH2]]
                   | doc rest res evs out Henc Hok H404 Hev [r [IH1 IH2]]
                   | doc rest res text evs out Henc Hok H404 Hb Hev [r [IH1 IH2]]
                   | doc rest res err Henc Hok H404 Hb
                   | doc rest err Henc ].
  - now exists [].
  - exists (map (deleteRequestFor env) (doc :: rest)).
    split; [reflexivity | discriminate].
  - exists r. list_requests. cbn [map]. now rewrite IH1.
  - exists r. list_requests. cbn [map]. now rewrite IH1.
  - exists r. list_requests. cbn [map]. now rewrite IH1.
  - exists (map (deleteRequestFor env) rest).
    split; [reflexivity | discriminate].
  - exists (map (deleteRequestFor env) rest).
    split; [reflexivity | discriminate].
Qed.

Lemma index_events_requests env documents st evs out :
  IndexEvents env documents st evs out ->
  exists rest,
    map (indexRequest env) documents = requestsOf evs ++ rest
    /\ (forall counters, out = Ret counters -> rest = []).
Proof.
  induction 1 as [ st
                 | doc rest success failed res evs out Hok Hev [r [IH1 IH2]]
                 | doc rest success failed res text evs out Hok Hb Hev [r [IH1 IH2]]
                 | doc rest st res err Hok Hb
                 | doc rest st err ].
  - now exists [].
  - exists r. list_requests. cbn [map]. now rewrite IH1.
  - exists r. list_requests. cbn [map]. now rewrite IH1.
  - exists (map (indexRequest env) rest).
    split; [reflexivity | discriminate].
  - exists (map (indexRequest env) rest).
    split; [reflexivity | discriminate].
Qed.

Lemma clean_phase_requests env documents clean cevs :
  CleanPhase env documents clean cevs ->
  requestsOf cevs
  = if clean then map (deleteRequestFor env) documents else [].
Proof.
  intros [|devs Hdev]; [reflexivity|].
  destruct (delete_events_requests Hdev) as (r & Hr & Hnil).
  rewrite (Hnil eq_refl), app_nil_r in Hr. list_requests. now rewrite Hr.
Qed.

Lemma indexRequestsOf_app (a b : list Request) :
  indexRequestsOf (a ++ b) = indexRequestsOf a ++ indexRequestsOf b.
Proof. apply filter_app. Qed.

Lemma indexRequestsOf_deletes env (documents : list SeedDocument) :
  indexRequestsOf (map (deleteRequestFor env) documents) = [].
Proof. induction documents as [|doc rest IH]; [reflexivity | exact IH]. Qed.

Lemma indexRequestsOf_indexes env (documents : list SeedDocument) :
  indexRequestsOf (map (indexRequest env) documents)
  = map (indexRequest env) documents.
Proof.
  induction documents as [|doc rest IH]; [reflexivity|].
  cbn [map]. unfold indexRequestsOf in *. cbn [filter indexRequest method Method_eqb].
  now rewrite IH.
Qed.

(** ** The two counters *)

(** C9.  When a run prints the summary line, every document of the seed
    file has had its index request, one each and in file order, every one
    of them was answered, the first number of the summary counts the
    answers with a success status and the second number the others, and
    the two add up to the number of documents loaded. *)
Theorem C9_summary_counts_every_document env argv seedFile net success failed :
  In (summaryLine success failed) (stdout (trace env argv seedFile net)) ->
  exists documents,
    seedFile = Parsed documents
    /\ success + failed = List.length documents
    /\ indexRequestsOf (requestsOf (trace env argv seedFile net))
       = map (indexRequest env) documents
    /\ countCutShort POST (trace env argv seedFile net) = 0
    /\ success = countIndexAnswers true (trace env argv seedFile net)
    /\ failed = countIndexAnswers false (trace env argv seedFile net).
Proof.
  intros Hin. apply in_stdout in Hin.
  destruct (Js.truthy (API_URL env)) eqn:Hu.
  2:{ destruct (run_missing_url env argv seedFile net Hu) as [Ht _].
      rewrite Ht in Hin. cbn in Hin. intuition discriminate. }
  destruct (Js.truthy (API_KEY env)) eqn:Hk.
  2:{ destruct (run_missing_key env argv seedFile net Hu Hk) as [Ht _].
      rewrite Ht in Hin. cbn in Hin. intuition discriminate. }
  assert (Hc : configured env) by (split; assumption).
  assert (Hbanner : In (Log (summaryLine success failed)) (banner env argv) -> False).
  { unfold banner. cbn [In]. intros H.
    repeat (destruct H as [H|H]; [discriminate H|]). exact H. }
  destruct seedFile as [documents|err].
  2:{ destruct (run_unreadable_seed argv net Hc (@eq_refl _ (Unreadable err))) as [Ht _].
      rewrite Ht in Hin. apply in_app_or in Hin.
      destruct Hin as [Hin|[Hin|[]]]; [now apply Hbanner in Hin | discriminate]. }
  destruct (run_main argv net Hc (@eq_refl _ (Parsed documents)))
    as (evs & Ht & Hrun).
  rewrite Ht in *. clear Ht. apply in_app_or in Hin.
  destruct Hin as [Hin|[Hin|Hin]]; [now apply Hbanner in Hin | discriminate |].
  destruct (main_run_completed _ _ Hrun Hin)
    as (cevs & ievs & Hcl & Hiev & -> & Hcode).
  exists documents. split; [reflexivity|].
  pose proof (banner_counts env argv (isCutShort POST) (fun _ => eq_refl)) as Hb1.
  pose proof (banner_counts env argv (isIndexAnswer true) (fun _ => eq_refl)) as Hb2.
  pose proof (banner_counts env argv (isIndexAnswer false) (fun _ => eq_refl)) as Hb3.
  destruct (clean_phase_counts Hcl) as (_ & _ & H2 & _).
  pose proof (H2 true) as H2t. pose proof (H2 false) as H2f.
  destruct (clean_phase_undisturbed Hcl) as (_ & H3 & _).
  destruct (index_events_completed Hiev eq_refl) as (_ & _ & H6 & H7 & H8).
  pose proof (index_events_undisturbed Hiev eq_refl) as H9.
  cbn [fst snd] in *.
  split; [exact H8|]. split; [|split; [|split]].
  - destruct (index_events_requests Hiev) as (r & Hr & Hnil).
    rewrite (Hnil _ eq_refl), app_nil_r in Hr.
    change (banner env argv ++ Log (loadedLine documents)
              :: cevs ++ Log indexingLine :: ievs
              ++ [Log EmptyString; Log (summaryLine success failed)])
      with (banner env argv ++ [Log (loadedLine documents)]
              ++ cevs ++ [Log indexingLine] ++ ievs
              ++ [Log EmptyString; Log (summaryLine success failed)]).
    list_requests. rewrite (clean_phase_requests Hcl), <- Hr.
    rewrite indexRequestsOf_app, indexRequestsOf_indexes.
    destruct (shouldClean argv); [now rewrite indexRequestsOf_deletes|reflexivity].
  - count_events. lia.
  - count_events. lia.
  - count_events. lia.
Qed.

Lemma C9_witness :
  exists documents,
    Parsed [Sample.docA; Sample.docB] = Parsed documents
    /\ 1 + 1 = List.length documents
    /\ indexRequestsOf
         (requestsOf (trace Sample.env Sample.argvClean
                        (Parsed [Sample.docA; Sample.docB]) Sample.netRefusesB))
       = map (indexRequest Sample.env) documents
    /\ countCutShort POST
         (trace Sample.env Sample.argvClean
            (Parsed [Sample.docA; Sample.docB]) Sample.netRefusesB) = 0
    /\ 1 = countIndexAnswers true
             (trace Sample.env Sample.argvClean
                (Parsed [Sample.docA; Sample.docB]) Sample.netRefusesB)
    /\ 1 = countIndexAnswers false
             (trace Sample.env Sample.argvClean
                (Parsed [Sample.docA; Sample.docB]) Sample.netRefusesB).
Proof.
  apply (@C9_summary_counts_every_document Sample.env Sample.argvClean
           (Parsed [Sample.docA; Sample.docB]) Sample.netRefusesB 1 1).
  vm_compute. repeat (first [left; reflexivity | right]).
Defined.

(** C7 (as amended).  In a configured run with [--clean] that no
    exception ends early (every id can be encoded, no request is
    rejected, no body that the script reads fails to be read), the driver
    goes through every document twice whatever the answers are (N delete
    requests, then N index requests), and the two counters of the summary
    are the numbers of index requests answered with and without a success
    status: the outcome of a delete is printed but counted nowhere, and
    the exit code follows the second counter alone. *)
Theorem C7_counters_follow_index_answers env argv documents net :
  configured env ->
  shouldClean argv = true ->
  let tr := trace env argv (Parsed documents) net in
  encodable documents = true ->
  countCutShort DELETE tr = 0 ->
  countCutShort POST tr = 0 ->
  countRequests DELETE tr = List.length documents
  /\ countRequests POST tr = List.length documents
  /\ (exists before,
        tr = before ++ [Log EmptyString;
                        Log (summaryLine (countIndexAnswers true tr)
                                         (countIndexAnswers false tr))])
  /\ countIndexAnswers true tr + countIndexAnswers false tr
     = List.length documents
  /\ exitCode env argv (Parsed documents) net
     = if 0 <? countIndexAnswers false tr then 1 else 0.
Proof.
  intros Hc Hclean tr Henc HrD HrP.
  destruct (run_main argv net Hc (@eq_refl _ (Parsed documents)))
    as (evs & Ht & Hrun).
  subst tr. rewrite Ht in *. clear Ht.
  assert (Hb : forall p, (forall line, p (Log line) = false) ->
                         countIf p (banner env argv) = 0)
    by (intros p; apply banner_counts).
  pose proof (Hb (isRequest DELETE) (fun _ => eq_refl)) as Hb1.
  pose proof (Hb (isRequest POST) (fun _ => eq_refl)) as Hb2.
  pose proof (Hb (isCutShort DELETE) (fun _ => eq_refl)) as Hb3.
  pose proof (Hb (isCutShort POST) (fun _ => eq_refl)) as Hb4.
  pose proof (Hb (isIndexAnswer true) (fun _ => eq_refl)) as Hb5.
  pose proof (Hb (isIndexAnswer false) (fun _ => eq_refl)) as Hb6.
  clear Hb.
  inversion Hrun as [devs err Hcl Hdev Hevs Hcode
                    | cevs ievs err Hcl Hiev Hevs Hcode
                    | cevs ievs success failed Hcl Hiev Hevs Hcode]; subst evs.
  - exfalso. pose proof (delete_events_thrown Hdev eq_refl Henc) as H1.
    count_events. lia.
  - exfalso. pose proof (index_events_thrown Hiev eq_refl) as H1.
    count_events. lia.
  - rewrite Hclean in Hcl.
    destruct (clean_phase_counts Hcl) as (H1 & _ & H2 & _ & H3).
    pose proof (H2 true) as H2t. pose proof (H2 false) as H2f.
    destruct (index_events_no_delete true Hiev) as (H4 & _ & _).
    destruct (index_events_completed Hiev eq_refl) as (H5 & _ & H6 & H7 & H8).
    cbn [fst snd] in *.
    assert (Hs : countIndexAnswers true
                   (banner env argv ++ Log (loadedLine documents)
                      :: cevs ++ Log indexingLine :: ievs
                      ++ [Log EmptyString; Log (summaryLine success failed)])
                 = success) by (count_events; lia).
    assert (Hf : countIndexAnswers false
                   (banner env argv ++ Log (loadedLine documents)
                      :: cevs ++ Log indexingLine :: ievs
                      ++ [Log EmptyString; Log (summaryLine success failed)])
                 = failed) by (count_events; lia).
    rewrite Hs, Hf.
    split; [|split; [|split; [|split]]].
    + count_events. lia.
    + count_events. lia.
    + exists (banner env argv ++ Log (loadedLine documents)
                :: cevs ++ Log indexingLine :: ievs).
      repeat (rewrite <- List.app_assoc || rewrite <- List.app_comm_cons).
      reflexivity.
    + lia.
    + first [reflexivity | now rewrite <- Hcode].
Qed.

Lemma C7_witness :
  let tr := trace Sample.env Sample.argvClean
              (Parsed [Sample.docA; Sample.docB]) Sample.netRefusesB in
  countRequests DELETE tr = 2
  /\ countRequests POST tr = 2
  /\ (exists before,
        tr = before ++ [Log EmptyString;
                        Log (summaryLine (countIndexAnswers true tr)
                                         (countIndexAnswers false tr))])
  /\ countIndexAnswers true tr + countIndexAnswers false tr = 2
  /\ exitCode Sample.env Sample.argvClean
       (Parsed [Sample.docA; Sample.docB]) Sample.netRefusesB
     = if 0 <? countIndexAnswers false tr then 1 else 0.
Proof.
  apply (@C7_counters_follow_index_answers Sample.env Sample.argvClean
           [Sample.docA; Sample.docB] Sample.netRefusesB).
  - split; reflexivity.
  - reflexivity.
  - reflexivity.
  - reflexivity.
  - reflexivity.
Defined.

(** C7 as stated fails on a delete that fails: with [--clean], one
    document, a service that answers 500 to the delete and 200 to the
    index request, the summary reads "1 indexed, 0 failed" and the exit
    code is 0, although one of the two operations failed. *)
Lemma C7_counterexample :
  let tr := trace Sample.env Sample.argvClean
              (Parsed [Sample.docA]) Sample.netDeleteFails in
  ~ (forall success failed,
       In (summaryLine success failed) (stdout tr) ->
       success = countIndexAnswers true tr + countDeleteAnswers true tr
       /\ failed = countIndexAnswers false tr + countDeleteAnswers false tr).
Proof.
  intros tr H.
  destruct (H 1 0) as [Hs Hf].
  - vm_compute. repeat (first [left; reflexivity | right]).
  - vm_compute in Hf. discriminate Hf.
Qed.

(** ** The API key and its fallback *)

Lemma truthy_or a b : Js.truthy (Js.or a b) = Js.truthy a || Js.truthy b.
Proof. unfold Js.or. destruct (Js.truthy a) eqn:Ha; [exact Ha | reflexivity]. Qed.

(** The lines [main] writes to the error stream are the indented lines of
    the two loops and the line of the handler of [main()]. *)
Lemma main_run_errors env documents clean evs code line :
  MainRun env documents clean evs code ->
  In (Error line) evs ->
  startsWith " " line = true \/ exists err, line = fatalLine err.
Proof.
  intros Hrun Hin.
  assert (Hcl : forall cevs, CleanPhase env documents clean cevs ->
                             In (Error line) cevs ->
                             startsWith " " line = true).
  { intros cevs Hc Hi. destruct (clean_phase_lines _ Hc Hi) as [H|[H|H]].
    - exact H.
    - discriminate.
    - discriminate. }
  inversion Hrun as [devs err Hc Hdev Hevs Hcode
                    | cevs ievs err Hc Hiev Hevs Hcode
                    | cevs ievs success failed Hc Hiev Hevs Hcode]; subst evs.
  - destruct Hin as [H|Hin]; [discriminate|].
    apply in_app_or in Hin. destruct Hin as [Hin|[H|[]]].
    + left. change (indented (Error line) = true).
      eapply indented_line; [eapply delete_events_indented|]; eassumption.
    + right. injection H as <-. now exists err.
  - apply in_app_or in Hin. destruct Hin as [Hin|[H|Hin]].
    + left. eapply Hcl; eassumption.
    + discriminate.
    + apply in_app_or in Hin. destruct Hin as [Hin|[H|[]]].
      * left. change (indented (Error line) = true).
        eapply indented_line; [eapply index_events_indented|]; eassumption.
      * right. injection H as <-. now exists err.
  - apply in_app_or in Hin. destruct Hin as [Hin|[H|Hin]].
    + left. eapply Hcl; eassumption.
    + discriminate.
    + apply in_app_or in Hin. destruct Hin as [Hin|[H|[H|[]]]].
      * left. change (indented (Error line) = true).
        eapply indented_line; [eapply index_events_indented|]; eassumption.
      * discriminate.
      * discriminate.
Qed.

(** C8 (as amended).  The API key is the value of [API_KEY] when that
    variable is set and not empty, and the value of [API_KEY_WRITER]
    otherwise; the fatal error for the missing key is raised exactly when
    the URL is there and each of the two variables is unset or empty. *)
Theorem C8_key_falls_back_when_unset_or_empty env argv seedFile net :
  (Js.truthy (env "API_KEY") = true -> API_KEY env = env "API_KEY")
  /\ (Js.truthy (env "API_KEY") = false -> API_KEY env = env "API_KEY_WRITER")
  /\ (env "API_KEY" = None -> API_KEY env = env "API_KEY_WRITER")
  /\ (In missingKeyLine (stderr (trace env argv seedFile net))
      <-> Js.truthy (API_URL env) = true
          /\ Js.truthy (env "API_KEY") = false
          /\ Js.truthy (env "API_KEY_WRITER") = false).
Proof.
  split; [|split; [|split]].
  - intros H. unfold API_KEY, Js.or. now rewrite H.
  - intros H. unfold API_KEY, Js.or. now rewrite H.
  - intros H. unfold API_KEY, Js.or. now rewrite H.
  - pose proof (truthy_or (env "API_KEY") (env "API_KEY_WRITER")) as Hor.
    fold (API_KEY env) in Hor.
    split.
    + intros Hin. apply in_stderr in Hin.
      destruct (Js.truthy (API_URL env)) eqn:Hu.
      2:{ destruct (run_missing_url env argv seedFile net Hu) as [Ht _].
          rewrite Ht in Hin. cbn in Hin. intuition discriminate. }
      destruct (Js.truthy (API_KEY env)) eqn:Hk.
      2:{ symmetry in Hor. apply orb_false_elim in Hor. tauto. }
      exfalso.
      assert (Hc : configured env) by (split; assumption).
      assert (Hbanner : In (Error missingKeyLine) (banner env argv) -> False).
      { unfold banner. cbn [In]. intros H.
        repeat (destruct H as [H|H]; [discriminate H|]). exact H. }
      destruct seedFile as [documents|err].
      * destruct (run_main argv net Hc (@eq_refl _ (Parsed documents)))
          as (evs & Ht & Hrun).
        rewrite Ht in Hin. apply in_app_or in Hin.
        destruct Hin as [Hin|[Hin|Hin]]; [auto | discriminate |].
        destruct (main_run_errors _ Hrun Hin) as [H|[e H]]; discriminate.
      * destruct (run_unreadable_seed argv net Hc (@eq_refl _ (Unreadable err)))
          as [Ht _].
        rewrite Ht in Hin. apply in_app_or in Hin.
        destruct Hin as [Hin|[Hin|[]]]; [auto | discriminate].
    + intros (Hu & Hk & Hw).
      assert (Hkey : Js.truthy (API_KEY env) = false)
        by (rewrite Hor, Hk, Hw; reflexivity).
      destruct (run_missing_key env argv seedFile net Hu Hkey) as [Ht _].
      rewrite Ht. left. reflexivity.
Qed.

(** C8 as stated fails on a key variable that is set to the empty string:
    with the URL, [API_KEY] set to the empty string and no
    [API_KEY_WRITER], the key is not taken from [API_KEY], and the fatal
    error is raised although not both variables are absent. *)
Lemma C8_counterexample :
  let env := Sample.envEmptyKey in
  ~ ((env "API_KEY" <> None -> API_KEY env = env "API_KEY")
     /\ (In missingKeyLine
           (stderr (trace env Sample.argvPlain (Parsed [Sample.docA]) Sample.netOk)) ->
         env "API_KEY" = None /\ env "API_KEY_WRITER" = None)).
Proof.
  intros env [_ H].
  destruct H as [H _].
  - vm_compute. left. reflexivity.
  - discriminate H.
Qed.

(** ** The URL of a delete request *)

Ltac each_byte c := destruct c as [[] [] [] [] [] [] [] []].

Lemma hexDigit_isHex k : Uri.isHex (Uri.hexDigit k) = true.
Proof. do 16 (destruct k as [|k]; [reflexivity|]). now destruct k. Qed.

Lemma hexDigit_upper k c :
  Uri.isHex c = false -> Ascii.eqb c (Uri.hexDigit k) = false.
Proof.
  intros Hc. apply Ascii.eqb_neq. intros ->.
  now rewrite hexDigit_isHex in Hc.
Qed.

(** A byte is given back by the two hexadecimal digits that stand for
    it. *)
Lemma hex_digits_of_byte c :
  let n := nat_of_ascii c in
  Uri.hexValue (Uri.hexDigit (n / 16)) = Some (n / 16)
  /\ Uri.hexValue (Uri.hexDigit (n mod 16)) = Some (n mod 16)
  /\ ascii_of_nat (16 * (n / 16) + n mod 16) = c.
Proof. each_byte c; vm_compute; repeat split. Qed.

Lemma escapedOnly_unreserved c rest :
  Uri.unreserved c = true ->
  Uri.escapedOnly (String c rest) = Uri.escapedOnly rest.
Proof.
  each_byte c; intros H; vm_compute in H; try discriminate H; reflexivity.
Qed.

Lemma decode_unreserved c rest :
  Uri.unreserved c = true ->
  Uri.decodeSegment (String c rest)
  = match Uri.decodeSegment rest with
    | Some r => Some (String c r)
    | None => None
    end.
Proof.
  each_byte c; intros H; vm_compute in H; try discriminate H; reflexivity.
Qed.

Lemma percentEncode_escapedOnly s :
  Uri.escapedOnly (Uri.percentEncode s) = true.
Proof.
  induction s as [|c s IH]; [reflexivity|].
  cbn [Uri.percentEncode]. destruct (Uri.unreserved c) eqn:Hc.
  - now rewrite escapedOnly_unreserved.
  - cbv zeta. cbn [Uri.escapedOnly]. now rewrite !hexDigit_isHex, IH.
Qed.

Lemma percentEncode_decode s :
  Uri.decodeSegment (Uri.percentEncode s) = Some s.
Proof.
  induction s as [|c s IH]; [reflexivity|].
  cbn [Uri.percentEncode]. destruct (Uri.unreserved c) eqn:Hc.
  - rewrite decode_unreserved by assumption. now rewrite IH.
  - cbv zeta. cbn [Uri.decodeSegment].
    destruct (hex_digits_of_byte c) as (Hh & Hl & Hb).
    cbv zeta in Hh, Hl, Hb. now rewrite Hh, Hl, IH, Hb.
Qed.

(** A character that is neither unreserved, nor "%", nor a hexadecimal
    digit does not occur in an encoded component. *)
Lemma percentEncode_leaves_out c s :
  Uri.unreserved c = false -> Uri.isHex c = false -> Ascii.eqb c "%" = false ->
  Uri.occurs c (Uri.percentEncode s) = false.
Proof.
  intros Hu Hh Hp. induction s as [|d s IH]; [reflexivity|].
  cbn [Uri.percentEncode]. destruct (Uri.unreserved d) eqn:Hd.
  - cbn [Uri.occurs]. rewrite IH, orb_false_r.
    apply Ascii.eqb_neq. intros ->. congruence.
  - cbv zeta. cbn [Uri.occurs].
    now rewrite Hp, !hexDigit_upper, IH by assumption.
Qed.

Lemma percentEncode_empty s :
  Uri.percentEncode s = EmptyString -> s = EmptyString.
Proof.
  destruct s as [|c s]; [reflexivity|].
  cbn [Uri.percentEncode]. destruct (Uri.unreserved c); discriminate.
Qed.

(** Encoding gives a dot segment for the ids "." and ".." only: a dot is
    never escaped. *)
Lemma percentEncode_dot_segment s :
  Uri.isDotSegment (Uri.percentEncode s) = true -> s = "." \/ s = "..".
Proof.
  unfold Uri.isDotSegment. cbn [existsb]. intros H.
  repeat (apply orb_prop in H; destruct H as [H|H]);
    try discriminate H;
    apply String.eqb_eq in H;
    pose proof (f_equal Uri.decodeSegment H) as D;
    rewrite percentEncode_decode in D; vm_compute in D;
    injection D as ->; vm_compute in H; try discriminate H; auto.
Qed.

Lemma singleSegment_percentEncode s :
  Uri.singleSegment (Uri.percentEncode s) = false
  <-> s = EmptyString \/ s = "." \/ s = "..".
Proof.
  unfold Uri.singleSegment. rewrite percentEncode_escapedOnly. cbn [andb].
  split.
  - intros H. apply andb_false_iff in H. destruct H as [H|H].
    + apply negb_false_iff, String.eqb_eq in H. left.
      now apply percentEncode_empty.
    + apply negb_false_iff in H. right. now apply percentEncode_dot_segment.
  - intros [->|[->| ->]]; reflexivity.
Qed.

(** C10 (as amended).  For an id without a lone surrogate,
    [deleteDocument] issues one request, a DELETE whose URL is the base
    URL, [/v1/documents/] and the id as [encodeURIComponent] gives it.
    That last part holds unreserved characters and complete
    percent-escapes only, so none of "/", "?", "#" and the blank, and
    percent-decoding it gives the id back; it is a path segment of its
    own (not empty, no dot segment) for every id but three, the
    empty id, ["."] and [".."], in particular for every id with a character
    that has to be escaped.  For an id with a lone surrogate
    [encodeURIComponent] throws: [deleteDocument] issues no request and
    prints nothing, the [URIError] leaves it. *)
Theorem C10_delete_url_embeds_encoded_id env net docId tr :
  (Uri.hasLoneSurrogate docId = true ->
     Uri.encodeURIComponent docId = None
     /\ deleteDocument env net docId tr = (Throw Js.uriError, tr))
  /\ (Uri.hasLoneSurrogate docId = false ->
      exists segment,
        Uri.encodeURIComponent docId = Some segment
        /\ exchanges (snd (deleteDocument env net docId tr))
           = exchanges tr
               ++ [(deleteRequest env segment,
                    net (exchanges tr) (deleteRequest env segment))]
        /\ method (deleteRequest env segment) = DELETE
        /\ url (deleteRequest env segment)
           = Js.tmpl (API_URL env) +++ "/v1/documents/" +++ segment
        /\ Uri.escapedOnly segment = true
        /\ Uri.occurs "/" segment = false
        /\ Uri.occurs "?" segment = false
        /\ Uri.occurs "#" segment = false
        /\ Uri.occurs " " segment = false
        /\ Uri.decodeSegment segment = Some docId
        /\ (Uri.singleSegment segment = false
            <-> docId = EmptyString \/ docId = "." \/ docId = "..")
        /\ (allUnreserved docId = false -> Uri.singleSegment segment = true)).
Proof.
  split; intros Henc.
  - unfold Uri.encodeURIComponent. rewrite deleteDocument_run, Henc.
    now split.
  - exists (Uri.percentEncode docId).
    split; [unfold Uri.encodeURIComponent; now rewrite Henc|].
    split.
    { rewrite deleteDocument_run, Henc. cbv zeta.
      destruct (net (exchanges tr) (deleteRequest env (Uri.percentEncode docId)))
        as [res|err] eqn:Hnet.
      - destruct (ok res); [|destruct (status res =? 404);
          [|destruct (responseBody res)]];
          cbn [snd]; rewrite ?exchanges_app; cbn [exchanges];
          now rewrite ?app_nil_r.
      - cbn [snd]. rewrite exchanges_app. reflexivity. }
    split; [reflexivity|]. split; [reflexivity|].
    split; [apply percentEncode_escapedOnly|].
    split; [now apply percentEncode_leaves_out|].
    split; [now apply percentEncode_leaves_out|].
    split; [now apply percentEncode_leaves_out|].
    split; [now apply percentEncode_leaves_out|].
    split; [apply percentEncode_decode|].
    split; [apply singleSegment_percentEncode|].
    intros Hplain.
    destruct (Uri.singleSegment (Uri.percentEncode docId)) eqn:Hs;
      [reflexivity|].
    apply singleSegment_percentEncode in Hs.
    destruct Hs as [->|[->| ->]]; discriminate Hplain.
Qed.

(** C10 as stated fails on an id with a lone surrogate: the id of
    [Sample.docBad] holds a "/", and its delete is never sent, because
    [encodeURIComponent] throws before [fetch] is called; with [--clean]
    the run ends there with exit code 1. *)
Lemma C10_counterexample :
  Uri.occurs "/" (id Sample.docBad) = true
  /\ exchanges
       (snd (deleteDocument Sample.env Sample.netOk (id Sample.docBad) []))
     = []
  /\ requestsOf (trace Sample.env Sample.argvClean (Parsed [Sample.docBad])
                   Sample.netOk) = []
  /\ exitCode Sample.env Sample.argvClean (Parsed [Sample.docBad])
       Sample.netOk = 1.
Proof. repeat split. Qed.

(** The id of [Sample.docB], as it is sent. *)
Example delete_url_of_docB :
  Uri.encodeURIComponent (id Sample.docB) = Some "faq%20%232%3F"
  /\ url (deleteRequestFor Sample.env Sample.docB)
     = "http://localhost:8787/v1/documents/faq%20%232%3F".
Proof. split; reflexivity. Qed.

(** ** Sample runs *)

Example run_without_url :
  trace Sample.envNoUrl Sample.argvClean (Parsed [Sample.docA]) Sample.netOk
  = missingUrlErrors
  /\ exitCode Sample.envNoUrl Sample.argvClean (Parsed [Sample.docA]) Sample.netOk
     = 1.
Proof. split; reflexivity. Qed.

Example empty_key_uses_writer :
  API_KEY Sample.envEmptyKeyWithWriter = Some "writer-key".
Proof. reflexivity. Qed.

Example seed_file_cannot_be_read :
  stderr (trace Sample.env Sample.argvPlain (Unreadable "ENOENT") Sample.netOk)
  = ["Fatal error: ENOENT"]
  /\ exitCode Sample.env Sample.argvPlain (Unreadable "ENOENT") Sample.netOk = 1.
Proof. split; reflexivity. Qed.

Example clean_run_with_a_refused_document :
  let tr := trace Sample.env Sample.argvClean
              (Parsed [Sample.docA; Sample.docB]) Sample.netRefusesB in
  map (fun x => method (fst x)) (exchanges tr) = [DELETE; DELETE; POST; POST]
  /\ stderr tr = ["  ✗ Failed to index faq #2?: 422 bad document"]
  /\ last (stdout tr) EmptyString = "✅ Done: 1 indexed, 1 failed"
  /\ exitCode Sample.env Sample.argvClean
       (Parsed [Sample.docA; Sample.docB]) Sample.netRefusesB = 1.
Proof. vm_compute. repeat split. Qed.

Example unreachable_service :
  let tr := trace Sample.env Sample.argvPlain
              (Parsed [Sample.docA; Sample.docB]) Sample.netDown in
  map (fun x => method (fst x)) (exchanges tr) = [POST]
  /\ stderr tr = ["Fatal error: fetch failed"]
  /\ exitCode Sample.env Sample.argvPlain
       (Parsed [Sample.docA; Sample.docB]) Sample.netDown = 1.
Proof. vm_compute. repeat split. Qed.

Example unreadable_body :
  let tr := trace Sample.env Sample.argvClean
              (Parsed [Sample.docA; Sample.docB]) Sample.netCutOff in
  map (fun x => method (fst x)) (exchanges tr) = [DELETE]
  /\ stderr tr = ["Fatal error: terminated"]
  /\ exitCode Sample.env Sample.argvClean
       (Parsed [Sample.docA; Sample.docB]) Sample.netCutOff = 1.
Proof. vm_compute. repeat split. Qed.

Example id_with_a_lone_surrogate :
  let tr := trace Sample.env Sample.argvClean
              (Parsed [Sample.docA; Sample.docBad]) Sample.netOk in
  map (fun x => method (fst x)) (exchanges tr) = [DELETE]
  /\ stderr tr = ["Fatal error: URIError: URI malformed"]
  /\ exitCode Sample.env Sample.argvClean
       (Parsed [Sample.docA; Sample.docBad]) Sample.netOk = 1.
Proof. vm_compute. repeat split. Qed.

(** * Further properties of the script *)

(** ** Which requests a run issues, continued *)

Lemma main_run_requests env documents clean evs code :
  MainRun env documents clean evs code ->
  exists rest,
    plannedRequests env clean documents = requestsOf evs ++ rest
    /\ ((clean = true -> encodable documents = true) ->
        countCutShort DELETE evs = 0 -> countCutShort POST evs = 0 ->
        rest = []).
Proof.
  unfold plannedRequests.
  intros [devs err Hclean Hdev
         | cevs ievs err Hcl Hiev
         | cevs ievs success failed Hcl Hiev].
  - subst clean.
    destruct (delete_events_requests Hdev) as (r & Hr & _).
    exists (r ++ map (indexRequest env) documents). split.
    + rewrite Hr. list_requests. now rewrite app_assoc.
    + intros Henc HD _.
      pose proof (delete_events_thrown Hdev eq_refl (Henc eq_refl)) as H1.
      count_events. lia.
  - destruct (index_events_requests Hiev) as (r & Hr & _).
    exists r. split.
    + rewrite Hr. list_requests.
      rewrite (clean_phase_requests Hcl). now rewrite app_assoc.
    + intros _ _ HP. pose proof (index_events_thrown Hiev eq_refl) as H1.
      destruct (clean_phase_undisturbed Hcl) as (_ & H2 & _).
      count_events. lia.
  - destruct (index_events_requests Hiev) as (r & Hr & Hnil).
    rewrite (Hnil _ eq_refl), app_nil_r in Hr.
    exists []. split; [|reflexivity]. rewrite app_nil_r, Hr.
    list_requests. now rewrite (clean_phase_requests Hcl).
Qed.

Lemma truthy_some v :
  Js.truthy v = true -> exists s, v = Some s /\ s <> EmptyString.
Proof.
  destruct v as [[|c s]|]; cbn; try discriminate.
  intros _. exists (String c s). split; [reflexivity | discriminate].
Qed.

(** The requests of the delete loop are the deletes of documents whose
    id could be encoded. *)
Lemma delete_events_member env documents evs out req res :
  DeleteEvents env documents evs out ->
  In (Fetch req res) evs ->
  exists doc,
    In doc documents
    /\ Uri.hasLoneSurrogate (id doc) = false
    /\ req = deleteRequestFor env doc.
Proof.
  induction 1 as [ | doc rest Henc
                   | doc rest r evs out Henc Hok Hev IH
                   | doc rest r evs out Henc Hok H404 Hev IH
                   | doc rest r text evs out Henc Hok H404 Hb Hev IH
                   | doc rest r err Henc Hok H404 Hb
                   | doc rest err Henc ]; intros Hin.
  - destruct Hin.
  - destruct Hin.
  - destruct Hin as [H|[H|Hin]]; [|discriminate|].
    + injection H as <- _. exists doc. repeat split; [now left | assumption].
    + destruct (IH Hin) as (d & Hd & He & Hr). exists d.
      repeat split; [now right | assumption | assumption].
  - destruct Hin as [H|[H|Hin]]; [|discriminate|].
    + injection H as <- _. exists doc. repeat split; [now left | assumption].
    + destruct (IH Hin) as (d & Hd & He & Hr). exists d.
      repeat split; [now right | assumption | assumption].
  - destruct Hin as [H|[H|Hin]]; [|discriminate|].
    + injection H as <- _. exists doc. repeat split; [now left | assumption].
    + destruct (IH Hin) as (d & Hd & He & Hr). exists d.
      repeat split; [now right | assumption | assumption].
  - destruct Hin as [H|[]]. injection H as <- _.
    exists doc. repeat split; [now left | assumption].
  - destruct Hin as [H|[]]. injection H as <- _.
    exists doc. repeat split; [now left | assumption].
Qed.

Lemma clean_phase_member env documents clean cevs req res :
  CleanPhase env documents clean cevs ->
  In (Fetch req res) cevs ->
  clean = true
  /\ exists doc,
       In doc documents
       /\ Uri.hasLoneSurrogate (id doc) = false
       /\ req = deleteRequestFor env doc.
Proof.
  intros [|devs Hdev] Hin; [destruct Hin|].
  destruct Hin as [H|Hin]; [discriminate|].
  apply in_app_or in Hin. destruct Hin as [Hin|[H|[]]]; [|discriminate].
  split; [reflexivity|]. eapply delete_events_member; eassumption.
Qed.

Lemma index_events_member env documents st evs out req res :
  IndexEvents env documents st evs out ->
  In (Fetch req res) evs ->
  exists doc, In doc documents /\ req = indexRequest env doc.
Proof.
  induction 1 as [ st
                 | doc rest success failed r evs out Hok Hev IH
                 | doc rest success failed r text evs out Hok Hb Hev IH
                 | doc rest st r err Hok Hb
                 | doc rest st err ]; intros Hin.
  - destruct Hin.
  - destruct Hin as [H|[H|Hin]]; [|discriminate|].
    + injection H as <- _. exists doc. split; [now left | reflexivity].
    + destruct (IH Hin) as (d & Hd & Hr). exists d. split; [now right | assumption].
  - destruct Hin as [H|[H|Hin]]; [|discriminate|].
    + injection H as <- _. exists doc. split; [now left | reflexivity].
    + destruct (IH Hin) as (d & Hd & Hr). exists d. split; [now right | assumption].
  - destruct Hin as [H|[]]. injection H as <- _.
    exists doc. split; [now left | reflexivity].
  - destruct Hin as [H|[]]. injection H as <- _.
    exists doc. split; [now left | reflexivity].
Qed.

(** A request of a run of [main] is a delete of the first loop or an
    index request of the second. *)
Lemma main_run_member env documents clean evs code req res :
  MainRun env documents clean evs code ->
  In (Fetch req res) evs ->
  exists doc,
    In doc documents
    /\ ((clean = true /\ Uri.hasLoneSurrogate (id doc) = false
         /\ req = deleteRequestFor env doc)
        \/ req = indexRequest env doc).
Proof.
  intros [devs err Hclean Hdev
         | cevs ievs err Hcl Hiev
         | cevs ievs success failed Hcl Hiev] Hin.
  - destruct Hin as [H|Hin]; [discriminate|].
    apply in_app_or in Hin. destruct Hin as [Hin|[H|[]]]; [|discriminate].
    destruct (delete_events_member _ _ Hdev Hin) as (d & Hd & He & Hr).
    exists d. split; [assumption|]. now left.
  - apply in_app_or in Hin. destruct Hin as [Hin|[H|Hin]]; [|discriminate|].
    + destruct (clean_phase_member _ _ Hcl Hin) as (Hc & d & Hd & He & Hr).
      exists d. split; [assumption|]. now left.
    + apply in_app_or in Hin. destruct Hin as [Hin|[H|[]]]; [|discriminate].
      destruct (index_events_member _ _ Hiev Hin) as (d & Hd & Hr).
      exists d. split; [assumption|]. now right.
  - apply in_app_or in Hin. destruct Hin as [Hin|[H|Hin]]; [|discriminate|].
    + destruct (clean_phase_member _ _ Hcl Hin) as (Hc & d & Hd & He & Hr).
      exists d. split; [assumption|]. now left.
    + apply in_app_or in Hin.
      destruct Hin as [Hin|[H|[H|[]]]]; try discriminate.
      destruct (index_events_member _ _ Hiev Hin) as (d & Hd & Hr).
      exists d. split; [assumption|]. now right.
Qed.

(** X1.  Whatever a run sends, it sends for a document of the seed file,
    to the configured URL and with the configured key: a request is either
    the delete of some document's id, as [encodeURIComponent] gives it
    (only with [--clean]), or the index request that carries some
    document, and its [Authorization] header is "Bearer" with the key,
    which is a non-empty string. *)
Theorem X1_requests_are_for_seed_documents env argv seedFile net req res :
  In (Fetch req res) (trace env argv seedFile net) ->
  exists apiUrl apiKey documents doc,
    API_URL env = Some apiUrl /\ apiUrl <> EmptyString
    /\ API_KEY env = Some apiKey /\ apiKey <> EmptyString
    /\ seedFile = Parsed documents /\ In doc documents
    /\ In ("Authorization", "Bearer " +++ apiKey) (headers req)
    /\ ((method req = DELETE
         /\ (exists segment,
               Uri.encodeURIComponent (id doc) = Some segment
               /\ url req = apiUrl +++ "/v1/documents/" +++ segment)
         /\ body req = None
         /\ shouldClean argv = true)
        \/ (method req = POST
            /\ url req = apiUrl +++ "/v1/documents"
            /\ body req = Some doc)).
Proof.
  intros Hin.
  destruct (Js.truthy (API_URL env)) eqn:Hu.
  2:{ destruct (run_missing_url env argv seedFile net Hu) as [Ht _].
      rewrite Ht in Hin. cbn in Hin. intuition discriminate. }
  destruct (Js.truthy (API_KEY env)) eqn:Hk.
  2:{ destruct (run_missing_key env argv seedFile net Hu Hk) as [Ht _].
      rewrite Ht in Hin. cbn in Hin. intuition discriminate. }
  assert (Hc : configured env) by (split; assumption).
  destruct (truthy_some _ Hu) as (apiUrl & Hurl & Hurl').
  destruct (truthy_some _ Hk) as (apiKey & Hkey & Hkey').
  destruct seedFile as [documents|err].
  2:{ destruct (run_unreadable_seed argv net Hc (@eq_refl _ (Unreadable err)))
        as [Ht _].
      rewrite Ht in Hin. apply in_app_or in Hin.
      destruct Hin as [Hin|[Hin|[]]]; [|discriminate].
      unfold banner in Hin. cbn in Hin. intuition discriminate. }
  destruct (run_main argv net Hc (@eq_refl _ (Parsed documents)))
    as (evs & Ht & Hrun).
  rewrite Ht in Hin. apply fetch_after_banner in Hin.
  destruct (main_run_member _ _ Hrun Hin) as (doc & Hdoc & [(Hclean & Henc & ->)| ->]).
  - exists apiUrl, apiKey, documents, doc.
    unfold deleteRequestFor, deleteRequest. cbn [method url headers body].
    rewrite Hurl, Hkey. cbn [Js.tmpl].
    repeat split; try assumption; try (now left).
    left. repeat split; try assumption.
    exists (Uri.percentEncode (id doc)). split; [|reflexivity].
    unfold Uri.encodeURIComponent. now rewrite Henc.
  - exists apiUrl, apiKey, documents, doc.
    unfold indexRequest. cbn [method url headers body].
    rewrite Hurl, Hkey. cbn [Js.tmpl].
    repeat split; try assumption; try (now left).
    right. repeat split.
Qed.

Lemma X1_witness :
  exists apiUrl apiKey documents doc,
    API_URL Sample.env = Some apiUrl /\ apiUrl <> EmptyString
    /\ API_KEY Sample.env = Some apiKey /\ apiKey <> EmptyString
    /\ Parsed [Sample.docA; Sample.docB] = Parsed documents /\ In doc documents
    /\ In ("Authorization", "Bearer " +++ apiKey)
          (headers (deleteRequestFor Sample.env Sample.docB))
    /\ ((method (deleteRequestFor Sample.env Sample.docB) = DELETE
         /\ (exists segment,
               Uri.encodeURIComponent (id doc) = Some segment
               /\ url (deleteRequestFor Sample.env Sample.docB)
                  = apiUrl +++ "/v1/documents/" +++ segment)
         /\ body (deleteRequestFor Sample.env Sample.docB) = None
         /\ shouldClean Sample.argvClean = true)
        \/ (method (deleteRequestFor Sample.env Sample.docB) = POST
            /\ url (deleteRequestFor Sample.env Sample.docB)
               = apiUrl +++ "/v1/documents"
            /\ body (deleteRequestFor Sample.env Sample.docB) = Some doc)).
Proof.
  apply (@X1_requests_are_for_seed_documents Sample.env Sample.argvClean
           (Parsed [Sample.docA; Sample.docB]) Sample.netRefusesB
           (deleteRequestFor Sample.env Sample.docB)
           (Sample.answer 404 "not found")).
  vm_compute. repeat (first [left; reflexivity | right]).
Defined.

(** X2.  A run works through the seed file in file order: the requests it
    issues are, one after the other, the beginning of the list "with
    [--clean] one delete per document, then one index request per
    document".  They are the whole list when no exception ends the run
    early: with [--clean] every id can be encoded, and no request is
    rejected or answered with a body that the script reads and cannot
    read. *)
Theorem X2_requests_follow_the_seed_file env argv documents net :
  configured env ->
  let tr := trace env argv (Parsed documents) net in
  exists rest,
    plannedRequests env (shouldClean argv) documents = requestsOf tr ++ rest
    /\ ((shouldClean argv = true -> encodable documents = true) ->
        countCutShort DELETE tr = 0 -> countCutShort POST tr = 0 ->
        rest = []).
Proof.
  intros Hc tr.
  destruct (run_main argv net Hc (@eq_refl _ (Parsed documents)))
    as (evs & Ht & Hrun).
  subst tr. rewrite Ht.
  destruct (main_run_requests Hrun) as (rest & Hplan & Hall).
  exists rest. split.
  - change (banner env argv ++ Log (loadedLine documents) :: evs)
      with (banner env argv ++ [Log (loadedLine documents)] ++ evs).
    list_requests. exact Hplan.
  - intros Henc HD HP. apply Hall; [assumption| |].
    + pose proof (banner_counts env argv (isCutShort DELETE) (fun _ => eq_refl)).
      count_events. lia.
    + pose proof (banner_counts env argv (isCutShort POST) (fun _ => eq_refl)).
      count_events. lia.
Qed.

Lemma X2_witness :
  let tr := trace Sample.env Sample.argvClean
              (Parsed [Sample.docA; Sample.docB]) Sample.netRefusesB in
  exists rest,
    plannedRequests Sample.env (shouldClean Sample.argvClean)
      [Sample.docA; Sample.docB] = requestsOf tr ++ rest
    /\ ((shouldClean Sample.argvClean = true ->
         encodable [Sample.docA; Sample.docB] = true) ->
        countCutShort DELETE tr = 0 -> countCutShort POST tr = 0 ->
        rest = []).
Proof.
  apply (@X2_requests_follow_the_seed_file Sample.env Sample.argvClean
           [Sample.docA; Sample.docB] Sample.netRefusesB).
  split; reflexivity.
Defined.

(** ** Rejected requests *)

Lemma delete_events_rejection env documents evs out req err :
  DeleteEvents env documents evs out ->
  In (Fetch req (Rejected err)) evs ->
  out = Throw err /\ exists before, evs = before ++ [Fetch req (Rejected err)].
Proof.
  induction 1 as [ | doc rest Henc
                   | doc rest res evs out Henc Hok Hev IH
                   | doc rest res evs out Henc Hok H404 Hev IH
                   | doc rest res text evs out Henc Hok H404 Hb Hev IH
                   | doc rest res e Henc Hok H404 Hb
                   | doc rest e Henc ]; intros Hin.
  - destruct Hin.
  - destruct Hin.
  - destruct Hin as [H|[H|Hin]]; try discriminate.
    destruct (IH Hin) as [-> [before ->]]. split; [reflexivity|].
    now eexists (_ :: _ :: before).
  - destruct Hin as [H|[H|Hin]]; try discriminate.
    destruct (IH Hin) as [-> [before ->]]. split; [reflexivity|].
    now eexists (_ :: _ :: before).
  - destruct Hin as [H|[H|Hin]]; try discriminate.
    destruct (IH Hin) as [-> [before ->]]. split; [reflexivity|].
    now eexists (_ :: _ :: before).
  - destruct Hin as [H|[]]. discriminate.
  - destruct Hin as [H|[]]. injection H as <- <-.
    split; [reflexivity | now exists []].
Qed.

Lemma index_events_rejection env documents st evs out req err :
  IndexEvents env documents st evs out ->
  In (Fetch req (Rejected err)) evs ->
  out = Throw err /\ exists before, evs = before ++ [Fetch req (Rejected err)].
Proof.
  induction 1 as [ st
                 | doc rest success failed res evs out Hok Hev IH
                 | doc rest success failed res text evs out Hok Hb Hev IH
                 | doc rest st res e Hok Hb
                 | doc rest st e ]; intros Hin.
  - destruct Hin.
  - destruct Hin as [H|[H|Hin]]; try discriminate.
    destruct (IH Hin) as [-> [before ->]]. split; [reflexivity|].
    now eexists (_ :: _ :: before).
  - destruct Hin as [H|[H|Hin]]; try discriminate.
    destruct (IH Hin) as [-> [before ->]]. split; [reflexivity|].
    now eexists (_ :: _ :: before).
  - destruct Hin as [H|[]]. discriminate.
  - destruct Hin as [H|[]]. injection H as <- <-.
    split; [reflexivity | now exists []].
Qed.

Lemma clean_phase_no_rejection env documents clean cevs req err :
  CleanPhase env documents clean cevs ->
  ~ In (Fetch req (Rejected err)) cevs.
Proof.
  intros [|devs Hdev] Hin; [destruct Hin|].
  destruct Hin as [H|Hin]; [discriminate|].
  apply in_app_or in Hin. destruct Hin as [Hin|[H|[]]]; [|discriminate].
  now destruct (delete_events_rejection _ _ Hdev Hin) as [H _].
Qed.

(** X3.  A request that is rejected is the last thing the run does but
    for one line: the handler of [main()] writes "Fatal error" with the
    reason to the error stream and the process exits with code 1.  No
    further request is issued and no summary is printed. *)
Theorem X3_rejection_ends_the_run env argv seedFile net req err :
  In (Fetch req (Rejected err)) (trace env argv seedFile net) ->
  exitCode env argv seedFile net = 1
  /\ exists before,
       trace env argv seedFile net
       = before ++ [Fetch req (Rejected err); Error (fatalLine err)].
Proof.
  intros Hin.
  destruct (Js.truthy (API_URL env)) eqn:Hu.
  2:{ destruct (run_missing_url env argv seedFile net Hu) as [Ht _].
      rewrite Ht in Hin. cbn in Hin. intuition discriminate. }
  destruct (Js.truthy (API_KEY env)) eqn:Hk.
  2:{ destruct (run_missing_key env argv seedFile net Hu Hk) as [Ht _].
      rewrite Ht in Hin. cbn in Hin. intuition discriminate. }
  assert (Hc : configured env) by (split; assumption).
  destruct seedFile as [documents|e].
  2:{ destruct (run_unreadable_seed argv net Hc (@eq_refl _ (Unreadable e)))
        as [Ht _].
      rewrite Ht in Hin. apply in_app_or in Hin.
      destruct Hin as [Hin|[Hin|[]]]; [|discriminate].
      unfold banner in Hin. cbn in Hin. intuition discriminate. }
  destruct (run_main argv net Hc (@eq_refl _ (Parsed documents)))
    as (evs & Ht & Hrun).
  rewrite Ht in *. apply fetch_after_banner in Hin.
  inversion Hrun as [devs e Hclean Hdev Hevs Hcode
                    | cevs ievs e Hcl Hiev Hevs Hcode
                    | cevs ievs success failed Hcl Hiev Hevs Hcode]; subst evs.
  - split; [reflexivity|].
    destruct Hin as [H|Hin]; [discriminate|].
    apply in_app_or in Hin. destruct Hin as [Hin|[H|[]]]; [|discriminate].
    destruct (delete_events_rejection _ _ Hdev Hin) as [He [before ->]].
    injection He as ->.
    exists (banner env argv ++ Log (loadedLine documents)
              :: Log deletingLine :: before).
    repeat (rewrite <- List.app_assoc || rewrite <- List.app_comm_cons).
    reflexivity.
  - split; [reflexivity|].
    apply in_app_or in Hin. destruct Hin as [Hin|[H|Hin]].
    + now apply (clean_phase_no_rejection _ _ Hcl) in Hin.
    + discriminate.
    + apply in_app_or in Hin. destruct Hin as [Hin|[H|[]]]; [|discriminate].
      destruct (index_events_rejection _ _ Hiev Hin) as [He [before ->]].
      injection He as ->.
      exists (banner env argv ++ Log (loadedLine documents)
                :: cevs ++ Log indexingLine :: before).
      repeat (rewrite <- List.app_assoc || rewrite <- List.app_comm_cons).
      reflexivity.
  - exfalso.
    apply in_app_or in Hin. destruct Hin as [Hin|[H|Hin]].
    + now apply (clean_phase_no_rejection _ _ Hcl) in Hin.
    + discriminate.
    + apply in_app_or in Hin.
      destruct Hin as [Hin|[H|[H|[]]]]; try discriminate.
      now destruct (index_events_rejection _ _ Hiev Hin) as [H _].
Qed.

Lemma X3_witness :
  exitCode Sample.env Sample.argvClean (Parsed [Sample.docA; Sample.docB])
    Sample.netDown = 1
  /\ exists before,
       trace Sample.env Sample.argvClean (Parsed [Sample.docA; Sample.docB])
         Sample.netDown
       = before ++ [Fetch (deleteRequestFor Sample.env Sample.docA)
                      (Rejected "fetch failed");
                    Error (fatalLine "fetch failed")].
Proof.
  apply (@X3_rejection_ends_the_run Sample.env Sample.argvClean
           (Parsed [Sample.docA; Sample.docB]) Sample.netDown
           (deleteRequestFor Sample.env Sample.docA) "fetch failed").
  vm_compute. repeat (first [left; reflexivity | right]).
Defined.

(** ** The seed file *)

(** X4.  When the seed file cannot be read or parsed, a configured run
    prints its banner, issues no request at all, writes the one line
    "Fatal error" with the reason to the error stream and exits with
    code 1. *)
Theorem X4_unreadable_seed_file_is_fatal env argv net err :
  configured env ->
  let tr := trace env argv (Unreadable err) net in
  requestsOf tr = []
  /\ stderr tr = [fatalLine err]
  /\ stdout tr = stdout (banner env argv)
  /\ exitCode env argv (Unreadable err) net = 1.
Proof.
  intros Hc tr.
  destruct (run_unreadable_seed argv net Hc (@eq_refl _ (Unreadable err)))
    as [Ht Hx].
  subst tr. rewrite Ht, Hx.
  rewrite stderr_app, stdout_app. list_requests.
  repeat split.
Qed.

Lemma X4_witness :
  let tr := trace Sample.env Sample.argvClean (Unreadable "ENOENT") Sample.netOk in
  requestsOf tr = []
  /\ stderr tr = [fatalLine "ENOENT"]
  /\ stdout tr = stdout (banner Sample.env Sample.argvClean)
  /\ exitCode Sample.env Sample.argvClean (Unreadable "ENOENT") Sample.netOk = 1.
Proof.
  apply (@X4_unreadable_seed_file_is_fatal Sample.env Sample.argvClean
           Sample.netOk "ENOENT").
  split; reflexivity.
Defined.



(** ** The exit code *)

(** X6.  The exit code is 0 or 1, and 0 is earned: a run exits with code
    0 only when the configuration is there, the seed file was read, no
    request was rejected and the index request of every document was
    answered with a success status. *)
Theorem X6_exit_code_0_means_all_indexed env argv seedFile net :
  exitCode env argv seedFile net <= 1
  /\ (exitCode env argv seedFile net = 0 ->
      configured env
      /\ exists documents,
           seedFile = Parsed documents
           /\ countIndexAnswers true (trace env argv seedFile net)
              = List.length documents
           /\ countIndexAnswers false (trace env argv seedFile net) = 0
           /\ countRejected DELETE (trace env argv seedFile net) = 0
           /\ countRejected POST (trace env argv seedFile net) = 0).
Proof.
  destruct (Js.truthy (API_URL env)) eqn:Hu.
  2:{ destruct (run_missing_url env argv seedFile net Hu) as [_ Hx].
      rewrite Hx. split; [lia | discriminate]. }
  destruct (Js.truthy (API_KEY env)) eqn:Hk.
  2:{ destruct (run_missing_key env argv seedFile net Hu Hk) as [_ Hx].
      rewrite Hx. split; [lia | discriminate]. }
  assert (Hc : configured env) by (split; assumption).
  destruct seedFile as [documents|e].
  2:{ destruct (run_unreadable_seed argv net Hc (@eq_refl _ (Unreadable e)))
        as [_ Hx].
      rewrite Hx. split; [lia | discriminate]. }
  destruct (run_main argv net Hc (@eq_refl _ (Parsed documents)))
    as (evs & Ht & Hrun).
  rewrite Ht. clear Ht.
  assert (Hb : forall p, (forall line, p (Log line) = false) ->
                         countIf p (banner env argv) = 0)
    by (intros p; apply banner_counts).
  pose proof (Hb (isRejected DELETE) (fun _ => eq_refl)) as Hb3.
  pose proof (Hb (isRejected POST) (fun _ => eq_refl)) as Hb4.
  pose proof (Hb (isIndexAnswer true) (fun _ => eq_refl)) as Hb5.
  pose proof (Hb (isIndexAnswer false) (fun _ => eq_refl)) as Hb6.
  clear Hb.
  inversion Hrun as [devs e Hclean Hdev Hevs Hcode
                    | cevs ievs e Hcl Hiev Hevs Hcode
                    | cevs ievs success failed Hcl Hiev Hevs Hcode]; subst evs.
  - split; [lia | discriminate].
  - split; [lia | discriminate].
  - split; [destruct (0 <? failed); lia|].
    intros Hzero. destruct (0 <? failed) eqn:Hf; [discriminate|].
    apply Nat.ltb_ge in Hf.
    split; [exact Hc|]. exists documents. split; [reflexivity|].
    destruct (clean_phase_counts Hcl) as (_ & H1 & H2 & H3 & _).
    pose proof (H2 true) as H2t. pose proof (H2 false) as H2f.
    destruct (index_events_no_delete true Hiev) as (_ & H4 & _).
    destruct (index_events_completed Hiev eq_refl) as (_ & H5 & H6 & H7 & H8).
    cbn [fst snd] in *. count_events. repeat split; lia.
Qed.

(** ** The [--clean] flag *)

Lemma shouldClean_in argv :
  shouldClean argv = true <-> In "--clean" (skipn 2 argv).
Proof.
  unfold shouldClean, Js.includes. rewrite existsb_exists. split.
  - intros (x & Hin & Heq). apply String.eqb_eq in Heq. now subst x.
  - intros Hin. exists "--clean". split; [assumption | apply String.eqb_refl].
Qed.

Lemma index_events_method env documents st evs out req res :
  IndexEvents env documents st evs out ->
  In (Fetch req res) evs -> method req = POST.
Proof.
  induction 1; cbn [In]; intros Hin;
    repeat match goal with
           | H : _ \/ _ |- _ => destruct H as [H|H]
           | H : False |- _ => destruct H
           | H : Fetch _ _ = Fetch _ _ |- _ => inversion H; subst; clear H
           | H : Log _ = _ |- _ => discriminate H
           | H : Error _ = _ |- _ => discriminate H
           end; auto.
Qed.

(** X7.  A delete request is issued only when [--clean] is, as such, one
    of the arguments after the script name: the first two entries of
    [process.argv] do not count, nor does an argument that merely
    contains the flag. *)
Theorem X7_delete_only_with_clean_flag env argv seedFile net req res :
  In (Fetch req res) (trace env argv seedFile net) ->
  method req = DELETE ->
  In "--clean" (skipn 2 argv).
Proof.
  intros Hin Hm. apply shouldClean_in.
  destruct (Js.truthy (API_URL env)) eqn:Hu.
  2:{ destruct (run_missing_url env argv seedFile net Hu) as [Ht _].
      rewrite Ht in Hin. cbn in Hin. intuition discriminate. }
  destruct (Js.truthy (API_KEY env)) eqn:Hk.
  2:{ destruct (run_missing_key env argv seedFile net Hu Hk) as [Ht _].
      rewrite Ht in Hin. cbn in Hin. intuition discriminate. }
  assert (Hc : configured env) by (split; assumption).
  destruct seedFile as [documents|e].
  2:{ destruct (run_unreadable_seed argv net Hc (@eq_refl _ (Unreadable e)))
        as [Ht _].
      rewrite Ht in Hin. apply in_app_or in Hin.
      destruct Hin as [Hin|[Hin|[]]]; [|discriminate].
      unfold banner in Hin. cbn in Hin. intuition discriminate. }
  destruct (run_main argv net Hc (@eq_refl _ (Parsed documents)))
    as (evs & Ht & Hrun).
  rewrite Ht in Hin. apply fetch_after_banner in Hin.
  assert (Hidx : forall ievs out, IndexEvents env documents (0, 0) ievs out ->
                                  In (Fetch req res) ievs -> False).
  { intros ievs out Hiev Hi.
    pose proof (index_events_method _ _ Hiev Hi). congruence. }
  assert (Hcl : forall cevs, CleanPhase env documents (shouldClean argv) cevs ->
                             In (Fetch req res) cevs -> shouldClean argv = true).
  { intros cevs Hc' Hi. destruct (shouldClean argv); [reflexivity|].
    inversion Hc'; subst. destruct Hi. }
  inversion Hrun as [devs e Hclean Hdev Hevs Hcode
                    | cevs ievs e Hcl' Hiev Hevs Hcode
                    | cevs ievs success failed Hcl' Hiev Hevs Hcode]; subst evs.
  - assumption.
  - apply in_app_or in Hin. destruct Hin as [Hin|[H|Hin]].
    + eapply Hcl; eassumption.
    + discriminate.
    + apply in_app_or in Hin. destruct Hin as [Hin|[H|[]]]; [|discriminate].
      exfalso. eapply Hidx; eassumption.
  - apply in_app_or in Hin. destruct Hin as [Hin|[H|Hin]].
    + eapply Hcl; eassumption.
    + discriminate.
    + apply in_app_or in Hin.
      destruct Hin as [Hin|[H|[H|[]]]]; try discriminate.
      exfalso. eapply Hidx; eassumption.
Qed.

Lemma X7_witness : In "--clean" (skipn 2 Sample.argvClean).
Proof.
  apply (@X7_delete_only_with_clean_flag Sample.env Sample.argvClean
           (Parsed [Sample.docA]) Sample.netOk
           (deleteRequestFor Sample.env Sample.docA)
           (Sample.answer 200 "{}")).
  - vm_compute. repeat (first [left; reflexivity | right]).
  - reflexivity.
Defined.

(** The flag in the place of the script name is not an argument. *)
Example clean_as_script_name_is_no_flag :
  countRequests DELETE
    (trace Sample.env ["node"; "--clean"] (Parsed [Sample.docA]) Sample.netOk)
  = 0.
Proof. reflexivity. Qed.

(** ** The error stream *)

Lemma index_events_stderr env documents st evs out :
  IndexEvents env documents st evs out ->
  forall counters, out = Ret counters ->
  List.length (stderr evs) = countIndexAnswers false evs.
Proof.
  induction 1 as [ st
                 | doc rest success failed res evs out Hok Hev IH
                 | doc rest success failed res text evs out Hok Hb Hev IH
                 | doc rest st res e Hok Hb
                 | doc rest st e ]; intros c Hout; try discriminate;
    try specialize (IH c Hout);
    count_events; settle_answers; cbn [stderr List.length]; lia.
Qed.

(** X9.  A run that writes nothing to the error stream exits with
    code 0. *)
Theorem X9_silent_error_stream_means_exit_0 env argv seedFile net :
  stderr (trace env argv seedFile net) = [] ->
  exitCode env argv seedFile net = 0.
Proof.
  intros Hsilent.
  destruct (Js.truthy (API_URL env)) eqn:Hu.
  2:{ destruct (run_missing_url env argv seedFile net Hu) as [Ht _].
      rewrite Ht in Hsilent. discriminate. }
  destruct (Js.truthy (API_KEY env)) eqn:Hk.
  2:{ destruct (run_missing_key env argv seedFile net Hu Hk) as [Ht _].
      rewrite Ht in Hsilent. discriminate. }
  assert (Hc : configured env) by (split; assumption).
  destruct seedFile as [documents|e].
  2:{ destruct (run_unreadable_seed argv net Hc (@eq_refl _ (Unreadable e)))
        as [Ht _].
      rewrite Ht, stderr_app in Hsilent.
      apply app_eq_nil in Hsilent. destruct Hsilent as [_ H]. discriminate. }
  destruct (run_main argv net Hc (@eq_refl _ (Parsed documents)))
    as (evs & Ht & Hrun).
  rewrite Ht in Hsilent. clear Ht.
  apply (f_equal (@List.length string)) in Hsilent.
  rewrite stderr_app, length_app in Hsilent. cbn [stderr List.length] in Hsilent.
  inversion Hrun as [devs e Hclean Hdev Hevs Hcode
                    | cevs ievs e Hcl Hiev Hevs Hcode
                    | cevs ievs success failed Hcl Hiev Hevs Hcode]; subst evs.
  - exfalso. cbn [stderr] in Hsilent.
    rewrite stderr_app, length_app in Hsilent. cbn in Hsilent. lia.
  - exfalso. rewrite stderr_app, length_app in Hsilent. cbn [stderr] in Hsilent.
    rewrite stderr_app, length_app in Hsilent. cbn in Hsilent. lia.
  - rewrite stderr_app, length_app in Hsilent. cbn [stderr] in Hsilent.
    rewrite stderr_app, length_app in Hsilent. cbn [stderr List.length] in Hsilent.
    pose proof (index_events_stderr Hiev eq_refl) as H1.
    destruct (index_events_completed Hiev eq_refl) as (_ & _ & _ & H2 & _).
    cbn [snd] in H2.
    assert (Hf : failed = 0) by lia. rewrite Hf. reflexivity.
Qed.

Lemma X9_witness :
  exitCode Sample.env Sample.argvClean (Parsed [Sample.docA; Sample.docB])
    Sample.netOk = 0.
Proof.
  apply (@X9_silent_error_stream_means_exit_0 Sample.env Sample.argvClean
           (Parsed [Sample.docA; Sample.docB]) Sample.netOk).
  reflexivity.
Defined.

(** ** The summary *)

(** X10.  The summary tells the truth and comes last: when a run prints
    "s indexed, f failed", s and f are the numbers of index requests that
    were answered with and without a success status, no request was
    rejected, nothing is printed after the summary, and the exit code is
    1 exactly when f is not 0. *)
Theorem X10_summary_is_truthful env argv seedFile net s f :
  In (summaryLine s f) (stdout (trace env argv seedFile net)) ->
  s = countIndexAnswers true (trace env argv seedFile net)
  /\ f = countIndexAnswers false (trace env argv seedFile net)
  /\ countRejected DELETE (trace env argv seedFile net) = 0
  /\ countRejected POST (trace env argv seedFile net) = 0
  /\ exitCode env argv seedFile net = (if 0 <? f then 1 else 0)
  /\ exists before,
       trace env argv seedFile net
       = before ++ [Log EmptyString; Log (summaryLine s f)].
Proof.
  intros Hin. apply in_stdout in Hin.
  destruct (Js.truthy (API_URL env)) eqn:Hu.
  2:{ destruct (run_missing_url env argv seedFile net Hu) as [Ht _].
      rewrite Ht in Hin. cbn in Hin. intuition discriminate. }
  destruct (Js.truthy (API_KEY env)) eqn:Hk.
  2:{ destruct (run_missing_key env argv seedFile net Hu Hk) as [Ht _].
      rewrite Ht in Hin. cbn in Hin. intuition discriminate. }
  assert (Hc : configured env) by (split; assumption).
  assert (Hbanner : In (Log (summaryLine s f)) (banner env argv) -> False).
  { unfold banner. cbn [In]. intros H.
    repeat (destruct H as [H|H]; [discriminate H|]). exact H. }
  destruct seedFile as [documents|err].
  2:{ destruct (run_unreadable_seed argv net Hc (@eq_refl _ (Unreadable err)))
        as [Ht _].
      rewrite Ht in Hin. apply in_app_or in Hin.
      destruct Hin as [Hin|[Hin|[]]]; [now apply Hbanner in Hin | discriminate]. }
  destruct (run_main argv net Hc (@eq_refl _ (Parsed documents)))
    as (evs & Ht & Hrun).
  rewrite Ht in *. clear Ht. apply in_app_or in Hin.
  destruct Hin as [Hin|[Hin|Hin]]; [now apply Hbanner in Hin | discriminate |].
  destruct (main_run_completed _ _ Hrun Hin) as (cevs & ievs & Hcl & Hiev & -> & Hcode).
  assert (Hb : forall p, (forall line, p (Log line) = false) ->
                         countIf p (banner env argv) = 0)
    by (intros p; apply banner_counts).
  pose proof (Hb (isRejected DELETE) (fun _ => eq_refl)) as Hb1.
  pose proof (Hb (isRejected POST) (fun _ => eq_refl)) as Hb2.
  pose proof (Hb (isIndexAnswer true) (fun _ => eq_refl)) as Hb3.
  pose proof (Hb (isIndexAnswer false) (fun _ => eq_refl)) as Hb4.
  clear Hb.
  destruct (clean_phase_counts Hcl) as (_ & H1 & H2 & H3 & _).
  pose proof (H2 true) as H2t. pose proof (H2 false) as H2f.
  destruct (index_events_no_delete true Hiev) as (_ & H4 & _).
  destruct (index_events_completed Hiev eq_refl) as (_ & H5 & H6 & H7 & _).
  cbn [fst snd] in *.
  split; [|split; [|split; [|split; [|split]]]].
  - count_events. lia.
  - count_events. lia.
  - count_events. lia.
  - count_events. lia.
  - exact Hcode.
  - exists (banner env argv ++ Log (loadedLine documents)
              :: cevs ++ Log indexingLine :: ievs).
    repeat (rewrite <- List.app_assoc || rewrite <- List.app_comm_cons).
    reflexivity.
Qed.

Lemma X10_witness :
  let tr := trace Sample.env Sample.argvPlain
              (Parsed [Sample.docA; Sample.docB]) Sample.netRefusesB in
  1 = countIndexAnswers true tr
  /\ 1 = countIndexAnswers false tr
  /\ countRejected DELETE tr = 0
  /\ countRejected POST tr = 0
  /\ exitCode Sample.env Sample.argvPlain
       (Parsed [Sample.docA; Sample.docB]) Sample.netRefusesB
     = (if 0 <? 1 then 1 else 0)
  /\ exists before, tr = before ++ [Log EmptyString; Log (summaryLine 1 1)].
Proof.
  apply (@X10_summary_is_truthful Sample.env Sample.argvPlain
           (Parsed [Sample.docA; Sample.docB]) Sample.netRefusesB 1 1).
  vm_compute. repeat (first [left; reflexivity | right]).
Defined.

(** ** Every answer is reported *)

(** Where an element of a concatenation sits. *)
Lemma split_in_app (a b : Trace) before x after :
  a ++ b = before ++ x :: after ->
  (exists a', a = before ++ x :: a' /\ after = a' ++ b)
  \/ (exists b', before = a ++ b' /\ b = b' ++ x :: after).
Proof.
  revert before. induction a as [|y a IH]; intros before H.
  - right. exists before. now split.
  - destruct before as [|z before].
    + injection H as -> H. left. exists a. now split.
    + injection H as -> H. destruct (IH _ H) as [(a' & -> & ->)|(b' & -> & ->)].
      * left. now exists a'.
      * right. now exists b'.
Qed.

Lemma delete_events_reported env documents evs out before req res after :
  DeleteEvents env documents evs out ->
  evs = before ++ Fetch req (Resolved res) :: after ->
  exists doc,
    req = deleteRequestFor env doc
    /\ ((exists rest, after = deleteReport (id doc) res :: rest)
        \/ (after = []
            /\ exists err,
                 out = Throw err
                 /\ deleteReport (id doc) res = Error (fatalLine err))).
Proof.
  intros Hev. revert before.
  induction Hev as [ | doc rest Henc
                     | doc rest r evs out Henc Hok Hev IH
                     | doc rest r evs out Henc Hok H404 Hev IH
                     | doc rest r text evs out Henc Hok H404 Hb Hev IH
                     | doc rest r err Henc Hok H404 Hb
                     | doc rest err Henc ]; intros before Heq.
  - now destruct before.
  - now destruct before.
  - destruct before as [|x [|y before]].
    + injection Heq as <- <- <-. exists doc. split; [reflexivity|]. left.
      unfold deleteReport. rewrite Hok. now eexists.
    + injection Heq as _ H. discriminate H.
    + injection Heq as _ _ Heq. exact (IH _ Heq).
  - destruct before as [|x [|y before]].
    + injection Heq as <- <- <-. exists doc. split; [reflexivity|]. left.
      unfold deleteReport. rewrite Hok, H404, Nat.eqb_refl. now eexists.
    + injection Heq as _ H. discriminate H.
    + injection Heq as _ _ Heq. exact (IH _ Heq).
  - destruct before as [|x [|y before]].
    + injection Heq as <- <- <-. exists doc. split; [reflexivity|]. left.
      unfold deleteReport. apply Nat.eqb_neq in H404.
      rewrite Hok, H404, Hb. now eexists.
    + injection Heq as _ H. discriminate H.
    + injection Heq as _ _ Heq. exact (IH _ Heq).
  - destruct before as [|x before].
    + injection Heq as <- <- <-. exists doc. split; [reflexivity|]. right.
      split; [reflexivity|]. exists err. split; [reflexivity|].
      unfold deleteReport. apply Nat.eqb_neq in H404.
      now rewrite Hok, H404, Hb.
    + injection Heq as _ Heq. now destruct before.
  - destruct before as [|x before].
    + discriminate Heq.
    + injection Heq as _ Heq. now destruct before.
Qed.

Lemma index_events_reported env documents st evs out before req res after :
  IndexEvents env documents st evs out ->
  evs = before ++ Fetch req (Resolved res) :: after ->
  exists doc,
    req = indexRequest env doc
    /\ ((exists rest, after = indexReport doc res :: rest)
        \/ (after = []
            /\ exists err,
                 out = Throw err
                 /\ indexReport doc res = Error (fatalLine err))).
Proof.
  intros Hev. revert before.
  induction Hev as [ st
                   | doc rest success failed r evs out Hok Hev IH
                   | doc rest success failed r text evs out Hok Hb Hev IH
                   | doc rest st r err Hok Hb
                   | doc rest st err ]; intros before Heq.
  - now destruct before.
  - destruct before as [|x [|y before]].
    + injection Heq as <- <- <-. exists doc. split; [reflexivity|]. left.
      unfold indexReport. rewrite Hok. now eexists.
    + injection Heq as _ H. discriminate H.
    + injection Heq as _ _ Heq. exact (IH _ Heq).
  - destruct before as [|x [|y before]].
    + injection Heq as <- <- <-. exists doc. split; [reflexivity|]. left.
      unfold indexReport. rewrite Hok, Hb. now eexists.
    + injection Heq as _ H. discriminate H.
    + injection Heq as _ _ Heq. exact (IH _ Heq).
  - destruct before as [|x before].
    + injection Heq as <- <- <-. exists doc. split; [reflexivity|]. right.
      split; [reflexivity|]. exists err. split; [reflexivity|].
      unfold indexReport. now rewrite Hok, Hb.
    + injection Heq as _ Heq. now destruct before.
  - destruct before as [|x before].
    + discriminate Heq.
    + injection Heq as _ Heq. now destruct before.
Qed.

Lemma clean_phase_reported env documents clean cevs before req res after :
  CleanPhase env documents clean cevs ->
  cevs = before ++ Fetch req (Resolved res) :: after ->
  exists doc rest,
    req = deleteRequestFor env doc
    /\ after = deleteReport (id doc) res :: rest.
Proof.
  intros [|devs Hdev] Heq; [now destruct before|].
  destruct before as [|x before]; [discriminate Heq|].
  injection Heq as _ Heq.
  apply split_in_app in Heq.
  destruct Heq as [(a' & Hd & ->)|(b' & _ & Hb)].
  - destruct (@delete_events_reported _ _ _ _ _ _ _ _ Hdev Hd)
      as (doc & Hreq & [(rest & ->)|(_ & e & He & _)]); [|discriminate He].
    exists doc, (rest ++ [Log EmptyString]). now split.
  - destruct b' as [|y b']; [discriminate Hb|].
    injection Hb as _ Hb. now destruct b'.
Qed.

(** X13.  Every answer is reported at once: wherever a request that got
    a response stands in a run, the event right after it is the console
    call about that answer, with the id of the document.  For a delete
    that is "Deleted" or "Not found (skip)" on the output stream, or
    "Failed to delete" with the body on the error stream; for an index
    request "Indexed" on the output stream or "Failed to index" with the
    body on the error stream; and when the body that a failure line needs
    cannot be read, the line "Fatal error" of the handler of [main()]. *)
Theorem X13_every_answer_is_reported env argv seedFile net before req res after :
  trace env argv seedFile net = before ++ Fetch req (Resolved res) :: after ->
  exists doc rest,
    (req = deleteRequestFor env doc
     /\ after = deleteReport (id doc) res :: rest)
    \/ (req = indexRequest env doc
        /\ after = indexReport doc res :: rest).
Proof.
  intros Heq.
  assert (Hin : In (Fetch req (Resolved res)) (trace env argv seedFile net))
    by (rewrite Heq; apply in_or_app; right; now left).
  destruct (Js.truthy (API_URL env)) eqn:Hu.
  2:{ destruct (run_missing_url env argv seedFile net Hu) as [Ht _].
      rewrite Ht in Hin. cbn in Hin. intuition discriminate. }
  destruct (Js.truthy (API_KEY env)) eqn:Hk.
  2:{ destruct (run_missing_key env argv seedFile net Hu Hk) as [Ht _].
      rewrite Ht in Hin. cbn in Hin. intuition discriminate. }
  assert (Hc : configured env) by (split; assumption).
  destruct seedFile as [documents|e].
  2:{ destruct (run_unreadable_seed argv net Hc (@eq_refl _ (Unreadable e)))
        as [Ht _].
      rewrite Ht in Hin. apply in_app_or in Hin.
      destruct Hin as [Hin|[Hin|[]]]; [|discriminate].
      unfold banner in Hin. cbn in Hin. intuition discriminate. }
  clear Hin.
  destruct (run_main argv net Hc (@eq_refl _ (Parsed documents)))
    as (evs & Ht & Hrun).
  rewrite Ht in Heq. clear Ht.
  (* the request is not in the banner *)
  change (banner env argv ++ Log (loadedLine documents) :: evs)
    with (banner env argv ++ [Log (loadedLine documents)] ++ evs) in Heq.
  rewrite app_assoc in Heq. apply split_in_app in Heq.
  destruct Heq as [(a' & Hd & _)|(b0 & _ & Heq)].
  { exfalso.
    assert (Hin : In (Fetch req (Resolved res))
                     (banner env argv ++ [Log (loadedLine documents)]))
      by (rewrite Hd; apply in_or_app; right; now left).
    apply in_app_or in Hin. destruct Hin as [Hin|[Hin|[]]]; [|discriminate].
    unfold banner in Hin. cbn in Hin. intuition discriminate. }
  clear before. rename b0 into before.
  inversion Hrun as [devs e Hclean Hdev Hevs Hcode
                    | cevs ievs e Hcl Hiev Hevs Hcode
                    | cevs ievs success failed Hcl Hiev Hevs Hcode];
    rewrite <- Hevs in Heq; clear Hevs.
  - destruct before as [|x before]; [discriminate Heq|].
    injection Heq as _ Heq. apply split_in_app in Heq.
    destruct Heq as [(a' & Hd & ->)|(b' & _ & Hb)].
    + destruct (@delete_events_reported _ _ _ _ _ _ _ _ Hdev Hd)
        as (doc & Hreq & [(rest & ->)|(-> & e' & He & Hrep)]).
      * exists doc, (rest ++ [Error (fatalLine e)]). left. now split.
      * injection He as ->. exists doc, []. left. split; [assumption|].
        now rewrite Hrep.
    + destruct b' as [|y b']; [discriminate Hb|].
      injection Hb as _ Hb. now destruct b'.
  - apply split_in_app in Heq.
    destruct Heq as [(a' & Hd & ->)|(b1 & _ & Heq)].
    + destruct (@clean_phase_reported _ _ _ _ _ _ _ _ Hcl Hd) as (doc & rest & Hreq & ->).
      exists doc, (rest ++ Log indexingLine :: ievs ++ [Error (fatalLine e)]).
      left. now split.
    + destruct b1 as [|x b1]; [discriminate Heq|].
      injection Heq as _ Heq. apply split_in_app in Heq.
      destruct Heq as [(a' & Hd & ->)|(b' & _ & Hb)].
      * destruct (@index_events_reported _ _ _ _ _ _ _ _ _ Hiev Hd)
          as (doc & Hreq & [(rest & ->)|(-> & e' & He & Hrep)]).
        -- exists doc, (rest ++ [Error (fatalLine e)]). right. now split.
        -- injection He as ->. exists doc, []. right. split; [assumption|].
           now rewrite Hrep.
      * destruct b' as [|y b']; [discriminate Hb|].
        injection Hb as _ Hb. now destruct b'.
  - apply split_in_app in Heq.
    destruct Heq as [(a' & Hd & ->)|(b1 & _ & Heq)].
    + destruct (@clean_phase_reported _ _ _ _ _ _ _ _ Hcl Hd) as (doc & rest & Hreq & ->).
      exists doc, (rest ++ Log indexingLine :: ievs
                     ++ [Log EmptyString; Log (summaryLine success failed)]).
      left. now split.
    + destruct b1 as [|x b1]; [discriminate Heq|].
      injection Heq as _ Heq. apply split_in_app in Heq.
      destruct Heq as [(a' & Hd & ->)|(b' & _ & Hb)].
      * destruct (@index_events_reported _ _ _ _ _ _ _ _ _ Hiev Hd)
          as (doc & Hreq & [(rest & ->)|(_ & e' & He & _)]); [|discriminate He].
        exists doc, (rest ++ [Log EmptyString; Log (summaryLine success failed)]).
        right. now split.
      * destruct b' as [|y [|z b']]; try discriminate Hb.
        injection Hb as _ _ Hb. now destruct b'.
Qed.

Lemma X13_witness :
  exists doc rest,
    (deleteRequestFor Sample.env Sample.docA = deleteRequestFor Sample.env doc
     /\ [Error (fatalLine "terminated")]
        = deleteReport (id doc)
            {| status := 500; responseBody := BodyFailed "terminated" |}
            :: rest)
    \/ (deleteRequestFor Sample.env Sample.docA = indexRequest Sample.env doc
        /\ [Error (fatalLine "terminated")]
           = indexReport doc
               {| status := 500; responseBody := BodyFailed "terminated" |}
               :: rest).
Proof.
  apply (@X13_every_answer_is_reported Sample.env Sample.argvClean
           (Parsed [Sample.docA; Sample.docB]) Sample.netCutOff
           (firstn 6 (trace Sample.env Sample.argvClean
                        (Parsed [Sample.docA; Sample.docB]) Sample.netCutOff))
           (deleteRequestFor Sample.env Sample.docA)
           {| status := 500; responseBody := BodyFailed "terminated" |}
           [Error (fatalLine "terminated")]).
  reflexivity.
Defined.
